(** * simple-whois-parser: the record parser of [parser.py] and its document model

    A shallow embedding of [WhoisDocument] and [WhoisTextParser] from
    [src/parser.py], with the properties of the streaming record parser.

    Python values are modelled as follows.
    - [str] is [string]; a character is a code point below 256.
    - A variable that holds [None] or a [str] is an [option string].
    - [WhoisDocument] (a [dict] subclass) is an association list in insertion
      order; a value is a list of fragments while the record is being built
      and a single [str] after [join_values].
    - The text file handed to the parser is the list of its lines, each one
      with its line terminator, as iteration over a text file produces them;
      the parser keeps the lines it has not read yet. Reading a line never
      fails here: an error that the file object itself raises while the
      loop reads it ([EOFError], [OSError], [UnicodeDecodeError]) is outside
      the model, and nothing below says which exception ends such a call.
    - Exceptions are values of [exn]; a computation that may raise gives a
      [result].
    [SourceFile] is modelled as far as its state goes: which opener it
    chooses, and whether it holds a file object, open or closed; what [gzip]
    and the text decoding make of the bytes is not. The driver [load_data]
    is modelled by the two numbers it prints. *)

From Stdlib Require Import String Ascii List Bool Arith Lia ZArith.
From Stdlib.Strings Require Import Byte.
From stdpp Require Import base countable gmap strings.
From Equations Require Import Equations.
Import ListNotations.

Local Open Scope string_scope.
Local Open Scope list_scope.

(** ** Python string primitives *)

Module PyStr.

(** The line feed, ['\n']. *)
Definition LF : string := String (ascii_of_nat 10) EmptyString.
(** The horizontal tab, ['\t']. *)
Definition TAB : string := String (ascii_of_nat 9) EmptyString.

(** [str.isspace] on one character, for code points below 256:
    U+0009..U+000D, U+001C..U+001F, U+0020, U+0085 and U+00A0. *)
Definition isspace (c : ascii) : bool :=
  let n := nat_of_ascii c in
  (((9 <=? n) && (n <=? 13)) || ((28 <=? n) && (n <=? 32))
   || (n =? 133) || (n =? 160))%nat.

(** [s.startswith(p)]. *)
Definition startswith (s p : string) : bool := String.prefix p s.

(** [s.lstrip()]. *)
Fixpoint lstrip (s : string) : string :=
  match s with
  | EmptyString => EmptyString
  | String c s' => if isspace c then lstrip s' else s
  end.

(** [s.rstrip()]. *)
Fixpoint rstrip (s : string) : string :=
  match s with
  | EmptyString => EmptyString
  | String c s' =>
      match rstrip s' with
      | EmptyString => if isspace c then EmptyString else String c EmptyString
      | r => String c r
      end
  end.

(** [s.strip()]: whitespace removed at both ends. *)
Definition strip (s : string) : string := rstrip (lstrip s).

(** The scan behind [s.split(sep)] for a non-empty [sep]: [skip] counts the
    characters of a separator just matched that are still to be passed
    over, [cur] is the current segment, reversed. *)
Fixpoint split_scan (sep : string) (skip : nat) (cur : list ascii) (s : string)
  : list string :=
  match s with
  | EmptyString => [string_of_list_ascii (rev cur)]
  | String c s' =>
      match skip with
      | S k => split_scan sep k cur s'
      | O =>
          if String.prefix sep s
          then string_of_list_ascii (rev cur)
                 :: split_scan sep (String.length sep - 1) [] s'
          else split_scan sep 0 (c :: cur) s'
      end
  end.

(** [s.split(sep)]: [None] stands for the [ValueError] that an empty
    separator raises. *)
Definition split (s sep : string) : option (list string) :=
  match sep with
  | EmptyString => None
  | _ => Some (split_scan sep 0 [] s)
  end.

(** [sep.join(parts)]. *)
Definition join (sep : string) (parts : list string) : string :=
  String.concat sep parts.

(** Truth value of a [str]: false exactly for the empty string. *)
Definition truthy (s : string) : bool :=
  match s with EmptyString => false | _ => true end.

End PyStr.

(** ** Exceptions *)

Inductive exn : Set :=
| ValueError      (* a line that does not unpack into a name and a value *)
| KeyError        (* subscript of a document with a key it does not hold *)
| AttributeError. (* [append] on a value that is not a list *)

(** A computation that returns or raises. *)
Inductive result (A : Type) : Type :=
| Ok (a : A)
| Raise (e : exn).
Arguments Ok {A} a.
Arguments Raise {A} e.

Definition bind {A B : Type} (m : result A) (k : A -> result B) : result B :=
  match m with
  | Ok a => k a
  | Raise e => Raise e
  end.

Notation "'try!' ' p := m 'in' k" := (bind m (fun x => let 'p := x in k))
  (at level 10, p pattern, m at level 100, k at level 200).

(** Truth value of a variable that holds [None] or a [str]. *)
Definition truthy (o : option string) : bool :=
  match o with
  | None => false
  | Some s => PyStr.truthy s
  end.

(** ** The document model *)

(** A value of a document: the list of fragments gathered so far, or the
    single string that [join_values] leaves. *)
Inductive value : Set :=
| Fragments (parts : list string)
| Joined (s : string).

(** [WhoisDocument], a [dict]: attribute names in insertion order, each name
    at most once. *)
Definition WhoisDocument : Set := list (string * value).

Module Dict.

(** [d.get(k)]; [d[k]] raises [KeyError] where this is [None]. *)
Fixpoint get (k : string) (d : WhoisDocument) : option value :=
  match d with
  | [] => None
  | (k', v) :: d' => if String.eqb k k' then Some v else get k d'
  end.

(** [k in d]. *)
Definition contains (k : string) (d : WhoisDocument) : bool :=
  match get k d with Some _ => true | None => false end.

(** [d[k] = v]: the value is replaced where [k] is present, and a new key
    goes to the end. *)
Fixpoint set (k : string) (v : value) (d : WhoisDocument) : WhoisDocument :=
  match d with
  | [] => [(k, v)]
  | (k', v') :: d' =>
      if String.eqb k k' then (k', v) :: d' else (k', v') :: set k v d'
  end.

(** [list(d)], the keys in insertion order. *)
Definition keys (d : WhoisDocument) : list string := map fst d.

(** [list(d.items())]. *)
Definition items (d : WhoisDocument) : list (string * value) := d.

(** [not d]: a dict is false exactly when it has no key. *)
Definition is_empty (d : WhoisDocument) : bool :=
  match d with [] => true | _ => false end.

(** The invariant of a [dict]: no key twice. *)
Definition wf (d : WhoisDocument) : Prop := List.NoDup (keys d).

End Dict.

(** The body of the loop of [join_values], at the key [key]: a value that is
    a list is replaced by its fragments joined with [join_with]. *)
Definition join_at (join_with : string) (self : WhoisDocument) (key : string)
  : WhoisDocument :=
  match Dict.get key self with
  | Some (Fragments parts) => Dict.set key (Joined (PyStr.join join_with parts)) self
  | _ => self
  end.

(** [WhoisDocument.join_values]: [for key in self], the body above. *)
Definition join_values (self : WhoisDocument) (join_with : string) : WhoisDocument :=
  fold_left (join_at join_with) (Dict.keys self) self.

(** ** The parser *)

Record WhoisTextParser : Set := {
  _file : list string;
  _attribute_divider : string;
  _document_divider_pattern : string;
  _commentary_symbol : string;
  _lines_processed_counter : nat
}.

(** [WhoisTextParser.__init__]. *)
Definition __init__ (file : list string)
    (attribute_divider document_divider_pattern commentary_symbol : string)
  : WhoisTextParser :=
  {| _file := file;
     _attribute_divider := attribute_divider;
     _document_divider_pattern := document_divider_pattern;
     _commentary_symbol := commentary_symbol;
     _lines_processed_counter := 0 |}.

(** [WhoisTextParser(file)], with the default dividers and comment marker. *)
Definition WhoisTextParser_default (file : list string) : WhoisTextParser :=
  __init__ file ":" PyStr.LF "#".

(** The parser after the file iterator has moved on to [file] and the counter
    to [counter]. *)
Definition advance (self : WhoisTextParser) (file : list string) (counter : nat)
  : WhoisTextParser :=
  {| _file := file;
     _attribute_divider := _attribute_divider self;
     _document_divider_pattern := _document_divider_pattern self;
     _commentary_symbol := _commentary_symbol self;
     _lines_processed_counter := counter |}.

(** [_is_document_divider_found]. *)
Definition _is_document_divider_found (self : WhoisTextParser) (line : string) : bool :=
  String.eqb line (_document_divider_pattern self).

(** [_parse_line]: the attribute name and the value of a line, each [None]
    or a string. *)
Definition _parse_line (self : WhoisTextParser) (line : string)
  : result (option string * option string) :=
  try! '(key, value) :=
     (if String.eqb line PyStr.LF || PyStr.startswith line (_commentary_symbol self)
      then Ok (None, None)
      else if PyStr.startswith line " " || PyStr.startswith line PyStr.TAB
      then Ok (None, Some line)
      else match PyStr.split line (_attribute_divider self) with
           | Some [key; value] => Ok (Some key, Some value)
           | _ => Raise ValueError
           end) in
  let key := if truthy key then option_map PyStr.strip key else key in
  let value := if truthy value then option_map PyStr.strip value else value in
  Ok (key, value).

(** What a call of [__next__] comes to. *)
Inductive next_result : Set :=
| Return (document : WhoisDocument)
| StopIteration
| Raised (e : exn).

(** [document[key].append(value)]. *)
Definition append_fragment (document : WhoisDocument) (key : option string)
    (value : string) : result WhoisDocument :=
  match key with
  | None => Raise KeyError
  | Some k =>
      match Dict.get k document with
      | None => Raise KeyError
      | Some (Fragments parts) => Ok (Dict.set k (Fragments (parts ++ [value])) document)
      | Some (Joined _) => Raise AttributeError
      end
  end.

(** The part of the loop body of [__next__] that records a parsed line in the
    document (the [if]/[else] before [last_attribute_name = attribute]). *)
Definition record_line (document : WhoisDocument)
    (last_attribute_name attribute value : option string) : result WhoisDocument :=
  match attribute, value with
  | Some a, Some v =>
      if negb (Dict.contains a document)
      then Ok (Dict.set a (Fragments [v]) document)
      else append_fragment document (Some a) v
  | None, Some v =>
      if PyStr.truthy v
      then append_fragment document last_attribute_name v
      else Ok document
  | _, _ => Ok document
  end.

(** The [for line in self._file] loop of [__next__] with what follows it,
    from the state [document], [last_attribute_name], on the lines [file]
    still unread and with [counter] lines processed. *)
Fixpoint for_line_in_file (self : WhoisTextParser) (document : WhoisDocument)
    (last_attribute_name : option string) (file : list string) (counter : nat)
  : next_result * WhoisTextParser :=
  match file with
  | [] =>
      if Dict.is_empty document
      then (StopIteration, advance self [] counter)
      else (Return (join_values document PyStr.LF), advance self [] counter)
  | line :: file =>
      let counter := S counter in
      if _is_document_divider_found self line
      then
        if Dict.is_empty document
        then for_line_in_file self document last_attribute_name file counter
        else (Return (join_values document PyStr.LF), advance self file counter)
      else
        match _parse_line self line with
        | Raise e => (Raised e, advance self file counter)
        | Ok (attribute, value) =>
            if (match attribute with None => true | Some _ => false end)
               && negb (truthy last_attribute_name)
            then for_line_in_file self document last_attribute_name file counter
            else
              match record_line document last_attribute_name attribute value with
              | Raise e => (Raised e, advance self file counter)
              | Ok document => for_line_in_file self document attribute file counter
              end
        end
  end.

(** [WhoisTextParser.__next__]: a fresh document, no last attribute, and the
    loop over the lines not yet read. *)
Definition __next__ (self : WhoisTextParser) : next_result * WhoisTextParser :=
  for_line_in_file self [] (Some "") (_file self) (_lines_processed_counter self).

(** How the iteration over a parser ends: the file is exhausted, or a call of
    [__next__] raised and the exception went through the loop. *)
Inductive ending : Set :=
| Exhausted
| Aborted (e : exn).

(** [yield document], followed by what the rest of the iteration gives. *)
Definition yield (document : WhoisDocument) (rest : list WhoisDocument * ending)
  : list WhoisDocument * ending :=
  (document :: fst rest, snd rest).

(** A value together with the equation that says what it is, to match on the
    outcome of a call and remember the call. *)
Definition inspect {A : Type} (a : A) : {b : A | a = b} := exist _ a eq_refl.

(** [for document in parser: yield document], the loop of [parse_file]: the
    documents yielded and how the loop ended. A call of [__next__] that
    returns a document has read at least one line, which is why the loop
    ends. *)
Equations? iterate (parser : WhoisTextParser) : list WhoisDocument * ending
  by wf (length (_file parser)) lt :=
  iterate parser with inspect (__next__ parser) => {
    | exist _ (Return document, parser') _ => yield document (iterate parser')
    | exist _ (StopIteration, _) _ => ([], Exhausted)
    | exist _ (Raised e, _) _ => ([], Aborted e)
  }.
Proof.
  assert (Hle : forall file self doc last counter r self',
             for_line_in_file self doc last file counter = (r, self') ->
             length (_file self') <= length file).
  { induction file as [|line file IH]; intros self doc last counter r self' H;
      cbn [for_line_in_file] in H.
    - destruct (Dict.is_empty doc); inversion H; simpl; lia.
    - repeat match type of H with
        | context [if ?b then _ else _] => destruct b
        | context [match ?m with Ok _ => _ | Raise _ => _ end] => destruct m as [[? ?]|?]
        | context [match ?m with Ok _ => _ | Raise _ => _ end] => destruct m
        end;
        first [ apply IH in H; simpl; lia | inversion H; simpl; lia ]. }
  match goal with H : __next__ _ = _ |- _ => rename H into Hnext end.
  unfold __next__ in Hnext.
  destruct (_file parser) as [|line file]; cbn [for_line_in_file Dict.is_empty] in Hnext;
    [discriminate|].
  repeat match type of Hnext with
    | context [if ?b then _ else _] => destruct b
    | context [match ?m with Ok _ => _ | Raise _ => _ end] => destruct m as [[? ?]|?]
    | context [match ?m with Ok _ => _ | Raise _ => _ end] => destruct m
    end;
    try discriminate; apply Hle in Hnext; simpl; lia.
Qed.

(** The same loop for the parser [self] put on the lines [file]: the
    configuration of [self] is any, the lines are those of any source. *)
Definition parse_lines (self : WhoisTextParser) (file : list string)
  : list WhoisDocument * ending :=
  iterate (advance self file (_lines_processed_counter self)).

(** [parse_file], from the lines that [SourceFile] gives for the path: the
    parser has the default configuration. *)
Definition parse_file (file : list string) : list WhoisDocument * ending :=
  iterate (WhoisTextParser_default file).

(** A line of text with its terminator. *)
Definition nl (s : string) : string := s ++ PyStr.LF.

(** What the iteration makes of the outcome of a call of [__next__]. *)
Definition resume (outcome : next_result * WhoisTextParser)
  : list WhoisDocument * ending :=
  match outcome with
  | (Return d, p') => yield d (iterate p')
  | (StopIteration, _) => ([], Exhausted)
  | (Raised e, _) => ([], Aborted e)
  end.

(** ** Equality and hash of documents *)

Global Instance value_eq_dec : EqDecision value.
Proof. solve_decision. Defined.

Global Instance value_countable : Countable value :=
  inj_countable'
    (fun v => match v with Fragments parts => inl parts | Joined s => inr s end)
    (fun x => match x with inl parts => Fragments parts | inr s => Joined s end)
    (fun v => match v with Fragments _ => eq_refl | Joined _ => eq_refl end).

(** [self == other], which [WhoisDocument] inherits from [dict]: as many
    keys, and every key of [self] is in [other] with an equal value. *)
Definition __eq__ (self other : WhoisDocument) : bool :=
  Nat.eqb (length self) (length other)
  && forallb
       (fun item : string * value =>
          match Dict.get (fst item) other with
          | Some v => bool_decide (snd item = v)
          | None => false
          end)
       (Dict.items self).

(** [frozenset(items)]: the set of the items; [None] stands for the
    [TypeError] raised when an item holds a list, which cannot be hashed. *)
Fixpoint frozenset (items : list (string * value)) : option (gset (string * value)) :=
  match items with
  | [] => Some ∅
  | (k, Joined s) :: items =>
      match frozenset items with
      | Some set => Some ({[ (k, Joined s) ]} ∪ set)
      | None => None
      end
  | (_, Fragments _) :: _ => None
  end.

Section Hash.

(** The hash of a [frozenset], a function of the set alone. *)
Variable hash : gset (string * value) -> Z.

(** [WhoisDocument.__hash__]: [hash(frozenset(self.items()))]. *)
Definition __hash__ (self : WhoisDocument) : option Z :=
  match frozenset (Dict.items self) with
  | Some set => Some (hash set)
  | None => None
  end.

End Hash.

(** A finalized document: every value is a single string. *)
Definition finalized (d : WhoisDocument) : Prop :=
  forall k v, In (k, v) d -> exists s, v = Joined s.

(** The set of the (attribute, value) pairs of a document. *)
Definition pair_set (d : WhoisDocument) : gset (string * value) := list_to_set d.

(** ** Vocabulary of the specification *)

(** The classes of lines, in the order in which [__next__] and [_parse_line]
    test for them. A blank line is in the class of comments. *)
Inductive line_class : Set :=
| DocumentBoundary
| Comment
| Continuation
| KeyValue.

Definition classify (self : WhoisTextParser) (line : string) : line_class :=
  if _is_document_divider_found self line then DocumentBoundary
  else if String.eqb line PyStr.LF || PyStr.startswith line (_commentary_symbol self)
  then Comment
  else if PyStr.startswith line " " || PyStr.startswith line PyStr.TAB
  then Continuation
  else KeyValue.

(** The number of segments into which a line splits on the divider; [0]
    where the split itself raises. *)
Definition segments (line divider : string) : nat :=
  match PyStr.split line divider with
  | Some parts => length parts
  | None => 0
  end.

(** The number of occurrences of a non-empty [sep] in [s], counted from the
    left without overlap, as [s.count(sep)] does. *)
Fixpoint count_scan (sep : string) (skip : nat) (s : string) : nat :=
  match s with
  | EmptyString => 0
  | String c s' =>
      match skip with
      | S k => count_scan sep k s'
      | O =>
          if String.prefix sep s
          then S (count_scan sep (String.length sep - 1) s')
          else count_scan sep 0 s'
      end
  end.

Definition count (s sep : string) : nat := count_scan sep 0 s.

(** A string without whitespace at either end. *)
Definition trimmed (s : string) : Prop := PyStr.strip s = s.

(** The lines at whose head the last attribute does not matter to the loop:
    all but those that start with a continuation line. *)
Definition no_continuation_ahead (self : WhoisTextParser) (file : list string) : Prop :=
  match file with
  | [] => True
  | line :: _ => classify self line <> Continuation
  end.

(** A string that does not start with whitespace. *)
Definition no_leading_space (s : string) : Prop :=
  match s with
  | EmptyString => True
  | String c _ => PyStr.isspace c = false
  end.

(** A string that does not end with whitespace. *)
Fixpoint no_trailing_space (s : string) : Prop :=
  match s with
  | EmptyString => True
  | String c EmptyString => PyStr.isspace c = false
  | String _ s' => no_trailing_space s'
  end.

(** What one joined value is made of: the fragments of a list, joined. *)
Definition joined (join_with : string) (v : value) : value :=
  match v with
  | Fragments parts => Joined (PyStr.join join_with parts)
  | Joined s => Joined s
  end.

(** ** The whole stream in one pass *)

(** The documents that the successive calls of [__next__] yield and the way
    the iteration ends, computed in one pass over the lines, from the state
    of the loop of [__next__]. It is shown below to be what [iterate]
    computes. *)
Fixpoint stream (self : WhoisTextParser) (document : WhoisDocument)
    (last_attribute_name : option string) (file : list string)
  : list WhoisDocument * ending :=
  match file with
  | [] =>
      if Dict.is_empty document then ([], Exhausted)
      else ([join_values document PyStr.LF], Exhausted)
  | line :: file =>
      if _is_document_divider_found self line
      then
        if Dict.is_empty document
        then stream self document last_attribute_name file
        else yield (join_values document PyStr.LF) (stream self [] (Some "") file)
      else
        match _parse_line self line with
        | Raise e => ([], Aborted e)
        | Ok (attribute, value) =>
            if (match attribute with None => true | Some _ => false end)
               && negb (truthy last_attribute_name)
            then stream self document last_attribute_name file
            else
              match record_line document last_attribute_name attribute value with
              | Raise e => ([], Aborted e)
              | Ok document => stream self document attribute file
              end
        end
  end.

(** The state of the loop of [__next__] between two lines: the document is a
    [dict] whose values are all lists, its keys are trimmed, and a last
    attribute that is a non-empty string is a key of the document. *)
Record building (document : WhoisDocument) (last_attribute_name : option string) : Prop := {
  building_wf : Dict.wf document;
  building_fragments :
    forall k v, In (k, v) document -> exists parts, v = Fragments parts;
  building_trimmed : forall k, In k (Dict.keys document) -> trimmed k;
  building_last :
    truthy last_attribute_name = true ->
    exists k, last_attribute_name = Some k /\ Dict.contains k document = true
}.

(** ** The rest of the parser and of the document *)

(** [WhoisTextParser.lines_processed]. *)
Definition lines_processed (self : WhoisTextParser) : nat :=
  _lines_processed_counter self.

(** [WhoisTextParser.__iter__]. *)
Definition __iter__ (self : WhoisTextParser) : WhoisTextParser := self.

(** The parser as the loop [for document in parser] of [parse_file] leaves
    it: after the call of [__next__] that raised [StopIteration] or another
    exception. When the loop ends on [StopIteration], [parse_file] prints
    [lines_processed] of this parser. *)
Equations? drain (parser : WhoisTextParser) : WhoisTextParser
  by wf (length (_file parser)) lt :=
  drain parser with inspect (__next__ parser) => {
    | exist _ (Return _, parser') _ => drain parser'
    | exist _ (StopIteration, parser') _ => parser'
    | exist _ (Raised _, parser') _ => parser'
  }.
Proof.
  assert (Hle : forall file self doc last counter r self',
             for_line_in_file self doc last file counter = (r, self') ->
             length (_file self') <= length file).
  { induction file as [|line file IH]; intros self doc last counter r self' H;
      cbn [for_line_in_file] in H.
    - destruct (Dict.is_empty doc); inversion H; simpl; lia.
    - repeat match type of H with
        | context [if ?b then _ else _] => destruct b
        | context [match ?m with Ok _ => _ | Raise _ => _ end] => destruct m as [[? ?]|?]
        | context [match ?m with Ok _ => _ | Raise _ => _ end] => destruct m
        end;
        first [ apply IH in H; simpl; lia | inversion H; simpl; lia ]. }
  match goal with H : __next__ _ = _ |- _ => rename H into Hnext end.
  unfold __next__ in Hnext.
  destruct (_file parser) as [|line file]; cbn [for_line_in_file Dict.is_empty] in Hnext;
    [discriminate|].
  repeat match type of Hnext with
    | context [if ?b then _ else _] => destruct b
    | context [match ?m with Ok _ => _ | Raise _ => _ end] => destruct m as [[? ?]|?]
    | context [match ?m with Ok _ => _ | Raise _ => _ end] => destruct m
    end;
    try discriminate; apply Hle in Hnext; simpl; lia.
Qed.

(** [f] on every element of a list, up to the first exception. *)
Fixpoint collect {A B : Type} (f : A -> result B) (l : list A) : result (list B) :=
  match l with
  | [] => Ok []
  | a :: l =>
      match f a with
      | Raise e => Raise e
      | Ok b =>
          match collect f l with
          | Raise e => Raise e
          | Ok bs => Ok (b :: bs)
          end
      end
  end.

Section Str.

(** [str] of a list of strings, which formats a value that is still a list. *)
Variable str_of_list : list string -> string.

(** [f"{value}"]. *)
Definition format_value (v : value) : string :=
  match v with
  | Joined s => s
  | Fragments parts => str_of_list parts
  end.

(** [f"-- {key}: {self[key]}"]. *)
Definition format_item (self : WhoisDocument) (key : string) : result string :=
  match Dict.get key self with
  | None => Raise KeyError
  | Some v => Ok ("-- " ++ key ++ ": " ++ format_value v)%string
  end.

(** [WhoisDocument.__str__]. *)
Definition __str__ (self : WhoisDocument) : result string :=
  if Dict.is_empty self then Ok "{}"
  else
    match collect (format_item self) (Dict.keys self) with
    | Raise e => Raise e
    | Ok lines => Ok (PyStr.LF ++ PyStr.join PyStr.LF lines)%string
    end.

End Str.

(** ** The driver *)

(** What [load_data] comes to: the two numbers it prints, or the exception
    that ends it; [Unhashable] is the [TypeError] of [hash(document)]. *)
Inductive load_outcome : Set :=
| Reported (documents_processed unique_documents : nat)
| Unhashable
| Interrupted (e : exn).

Section Driver.

Variable hash : gset (string * value) -> Z.

(** The body of the loop of [load_data] over the documents that the
    generator yields: the counter of the non-empty documents and the set of
    the hashes. [None] is the [TypeError] of [hash(document)]. *)
Fixpoint count_documents (documents : list WhoisDocument)
    (document_processed_counter : nat) (unique_documents : gset Z)
  : option (nat * gset Z) :=
  match documents with
  | [] => Some (document_processed_counter, unique_documents)
  | document :: documents =>
      let document_processed_counter :=
        if Dict.is_empty document then document_processed_counter
        else S document_processed_counter in
      match __hash__ hash document with
      | None => None
      | Some h =>
          count_documents documents document_processed_counter
            (unique_documents ∪ {[ h ]})
      end
  end.

(** [load_data], on the lines of the file at the path. The documents come
    one at a time from the generator, so an exception of the parser comes
    after the documents yielded before it have been counted. *)
Definition load_data (file : list string) : load_outcome :=
  match count_documents (fst (parse_file file)) 0 ∅ with
  | None => Unhashable
  | Some (document_processed_counter, unique_documents) =>
      match snd (parse_file file) with
      | Exhausted => Reported document_processed_counter (size unique_documents)
      | Aborted e => Interrupted e
      end
  end.

End Driver.

(** The line that [__str__] writes for an item. *)
Definition item_line (str_of_list : list string -> string) (item : string * value)
  : string :=
  ("-- " ++ fst item ++ ": " ++ format_value str_of_list (snd item))%string.

(** The hashes of the documents, as [load_data] gathers them. *)
Definition hashes (hash : gset (string * value) -> Z) (documents : list WhoisDocument)
  : gset Z :=
  list_to_set (map (fun d => hash (pair_set d)) documents).

(** ** The source file *)

Module SourceFile.

(** The files: the bytes at a path, [None] where [open] fails. *)
Definition file_system : Type := string -> option (list byte).

(** The two functions that open the file. *)
Inductive opener : Set :=
| gzip_open
| builtin_open.

(** The exceptions of the source file: [IOError] with its message, the
    error of [open] on a path that cannot be opened, and the
    [AttributeError] of [None.closed]. *)
Inductive error : Set :=
| IOError (message : string)
| FileNotFoundError
| NoneAttributeError.

Inductive outcome (A : Type) : Type :=
| Done (a : A)
| Fails (e : error).
Arguments Done {A} a.
Arguments Fails {A} e.

(** The text file object that the opener returns: how it was opened, and
    whether it is closed. *)
Record TextIOWrapper : Set := {
  name : string;
  opened_by : opener;
  text_encoding : string;
  closed : bool
}.

Record t : Set := {
  path : string;
  encoding : string;
  _file : option TextIOWrapper;
  _file_open_function : opener
}.

(** [is_file_gzipped]: the two bytes that [read(2)] gives are the gzip
    magic. *)
Definition is_file_gzipped (fs : file_system) (filepath : string) : outcome bool :=
  match fs filepath with
  | None => Fails FileNotFoundError
  | Some content =>
      Done match firstn 2 content with
           | [first; second] => Byte.eqb first x1f && Byte.eqb second x8b
           | _ => false
           end
  end.

(** [_get_file_opener_function]. *)
Definition _get_file_opener_function (fs : file_system) (path : string)
  : outcome opener :=
  match is_file_gzipped fs path with
  | Fails e => Fails e
  | Done true => Done gzip_open
  | Done false => Done builtin_open
  end.

(** [SourceFile(path, encoding)]. *)
Definition __init__ (fs : file_system) (path encoding : string) : outcome t :=
  match _get_file_opener_function fs path with
  | Fails e => Fails e
  | Done open_function =>
      Done {| path := path; encoding := encoding; _file := None;
              _file_open_function := open_function |}
  end.

(** [__enter__]: the file object, and the source file that holds it. *)
Definition __enter__ (fs : file_system) (self : t) : outcome (TextIOWrapper * t) :=
  match _file self with
  | Some _ => Fails (IOError ("File is opened already: " ++ path self))
  | None =>
      match fs (path self) with
      | None => Fails FileNotFoundError
      | Some _ =>
          let file :=
            {| name := path self; opened_by := _file_open_function self;
               text_encoding := encoding self; closed := false |} in
          Done (file,
                {| path := path self; encoding := encoding self;
                   _file := Some file;
                   _file_open_function := _file_open_function self |})
      end
  end.

(** [file.close()]. *)
Definition close (file : TextIOWrapper) : TextIOWrapper :=
  {| name := name file; opened_by := opened_by file;
     text_encoding := text_encoding file; closed := true |}.

(** [__exit__]. *)
Definition __exit__ (self : t) : outcome t :=
  match _file self with
  | None => Fails NoneAttributeError
  | Some file =>
      if negb (closed file)
      then Done {| path := path self; encoding := encoding self;
                   _file := Some (close file);
                   _file_open_function := _file_open_function self |}
      else Done self
  end.

End SourceFile.

(** ** Records of attribute lines *)

(** The values that the pairs [kvs] give to the attribute [k], in order. *)
Definition fragments_of (k : string) (kvs : list (string * string)) : list string :=
  map snd (List.filter (fun kv => String.eqb (fst kv) k) kvs).

(** The fragments gathered so far for the attribute [k]; none when the
    document does not hold it. *)
Definition fragments_at (k : string) (d : WhoisDocument) : list string :=
  match Dict.get k d with
  | Some (Fragments parts) => parts
  | _ => []
  end.

(** What a record of attribute lines has to give for the attribute [k]: no
    value when no line names it, and the values of its lines, joined,
    otherwise. *)
Definition expected_value (k : string) (kvs : list (string * string)) : option value :=
  match fragments_of k kvs with
  | [] => None
  | parts => Some (Joined (PyStr.join PyStr.LF parts))
  end.

(** The document in progress holds, for each attribute, the values of the
    lines read so far that name it. *)
Definition gathered (document : WhoisDocument) (seen : list (string * string)) : Prop :=
  forall k,
    Dict.get k document
    = match fragments_of k seen with
      | [] => None
      | parts => Some (Fragments parts)
      end.

(** * Properties *)

(** ** Strings *)

Example split_two : PyStr.split "a: 1" ":" = Some ["a"; " 1"].
Proof. reflexivity. Qed.

Example split_three : PyStr.split "a: b:c" ":" = Some ["a"; " b"; "c"].
Proof. reflexivity. Qed.

Example split_absent : PyStr.split "abc" ":" = Some ["abc"].
Proof. reflexivity. Qed.

Example split_long_sep : PyStr.split "k=>v=>" "=>" = Some ["k"; "v"; ""].
Proof. reflexivity. Qed.

Example strip_both : PyStr.strip ("  a b " ++ PyStr.LF) = "a b".
Proof. reflexivity. Qed.

Section StringFacts.

Lemma rstrip_cons (c : ascii) (s : string) :
  PyStr.rstrip (String c s)
  = match PyStr.rstrip s with
    | EmptyString => if PyStr.isspace c then EmptyString else String c EmptyString
    | r => String c r
    end.
Proof. reflexivity. Qed.

Lemma rstrip_idem (s : string) : PyStr.rstrip (PyStr.rstrip s) = PyStr.rstrip s.
Proof.
  induction s as [|c s IH]; [reflexivity|].
  rewrite rstrip_cons.
  destruct (PyStr.rstrip s) as [|c' r] eqn:E.
  - destruct (PyStr.isspace c) eqn:Ec; [reflexivity|].
    rewrite rstrip_cons. cbn [PyStr.rstrip]. now rewrite Ec.
  - rewrite rstrip_cons, IH. reflexivity.
Qed.

Lemma lstrip_no_leading (s : string) : no_leading_space (PyStr.lstrip s).
Proof.
  induction s as [|c s IH]; [exact I|].
  cbn [PyStr.lstrip]. destruct (PyStr.isspace c) eqn:Ec; [exact IH|exact Ec].
Qed.

Lemma lstrip_fixed (s : string) : no_leading_space s -> PyStr.lstrip s = s.
Proof.
  destruct s as [|c s]; [reflexivity|]. cbn. now intros ->.
Qed.

Lemma rstrip_no_leading (s : string) :
  no_leading_space s -> no_leading_space (PyStr.rstrip s).
Proof.
  destruct s as [|c s]; [intros _; exact I|].
  cbn [no_leading_space PyStr.rstrip]. intros Hc.
  destruct (PyStr.rstrip s); [rewrite Hc|]; exact Hc.
Qed.

Lemma strip_idem (s : string) : PyStr.strip (PyStr.strip s) = PyStr.strip s.
Proof.
  unfold PyStr.strip.
  rewrite (lstrip_fixed (PyStr.rstrip (PyStr.lstrip s))).
  - apply rstrip_idem.
  - apply rstrip_no_leading, lstrip_no_leading.
Qed.

Lemma rstrip_no_trailing (s : string) : no_trailing_space (PyStr.rstrip s).
Proof.
  induction s as [|c s IH]; [exact I|].
  rewrite rstrip_cons.
  destruct (PyStr.rstrip s) as [|c' r] eqn:E.
  - destruct (PyStr.isspace c) eqn:Ec; [exact I|exact Ec].
  - exact IH.
Qed.

(** A trimmed string has no whitespace at its head and none at its end. *)
Lemma trimmed_ends (s : string) :
  trimmed s -> no_leading_space s /\ no_trailing_space s.
Proof.
  unfold trimmed, PyStr.strip. intros H. rewrite <- H. split.
  - apply rstrip_no_leading, lstrip_no_leading.
  - apply rstrip_no_trailing.
Qed.

Lemma strip_trimmed (s : string) : trimmed (PyStr.strip s).
Proof. apply strip_idem. Qed.

Lemma empty_trimmed : trimmed "".
Proof. reflexivity. Qed.

Lemma truthy_false_iff (o : option string) :
  truthy o = false <-> o = None \/ o = Some "".
Proof.
  destruct o as [[|c s]|]; cbn; split; intros H; auto; try discriminate.
  - destruct H as [H|H]; discriminate.
Qed.

(** As many segments as occurrences of the separator, and one more. *)
Lemma split_scan_length (sep : string) (s : string) :
  forall skip cur,
    length (PyStr.split_scan sep skip cur s) = S (count_scan sep skip s).
Proof.
  induction s as [|c s IH]; intros skip cur; [reflexivity|].
  cbn [PyStr.split_scan count_scan].
  destruct skip as [|k]; [|apply IH].
  destruct (String.prefix sep (String c s)); cbn [length]; now rewrite IH.
Qed.

Lemma segments_count (s sep : string) :
  sep <> "" -> segments s sep = S (count s sep).
Proof.
  intros Hsep. unfold segments, PyStr.split, count.
  destruct sep as [|c sep]; [congruence|]. apply split_scan_length.
Qed.

Lemma append_cons (c : ascii) (a b : string) :
  (String c a ++ b)%string = String c (a ++ b).
Proof. reflexivity. Qed.

Lemma append_nil_r (s : string) : (s ++ "")%string = s.
Proof.
  induction s as [|c s IH]; [reflexivity|]. rewrite append_cons. now rewrite IH.
Qed.

Lemma prefix_append (p s : string) :
  String.prefix p s = true -> exists rest, s = (p ++ rest)%string.
Proof.
  revert s. induction p as [|a p IH]; intros s H.
  - exists s. reflexivity.
  - destruct s as [|b s]; cbn [String.prefix] in H; [discriminate|].
    destruct (ascii_dec a b) as [->|]; [|discriminate].
    destruct (IH s H) as [rest ->]. now exists rest.
Qed.

Lemma length_append (a b : string) :
  String.length (a ++ b) = String.length a + String.length b.
Proof.
  induction a as [|c a IH]; [reflexivity|].
  rewrite append_cons. cbn [String.length]. now rewrite IH.
Qed.

Lemma string_of_list_snoc (l : list ascii) (c : ascii) (s : string) :
  (string_of_list_ascii (l ++ [c]) ++ s)%string
  = (string_of_list_ascii l ++ String c s)%string.
Proof.
  induction l as [|a l IH]; [reflexivity|].
  cbn [app string_of_list_ascii]. rewrite !append_cons. now rewrite IH.
Qed.

(** The characters of a separator just matched are passed over. *)
Lemma split_scan_skip (sep : string) (pre rest : string) (cur : list ascii) :
  PyStr.split_scan sep (String.length pre) cur (pre ++ rest)
  = PyStr.split_scan sep 0 cur rest.
Proof.
  induction pre as [|c pre IH]; [reflexivity|].
  rewrite append_cons. cbn [String.length PyStr.split_scan]. exact IH.
Qed.

Lemma split_scan_not_nil (sep : string) (s : string) :
  forall skip cur, PyStr.split_scan sep skip cur s <> [].
Proof.
  intros skip cur H. apply (f_equal (@length string)) in H.
  rewrite split_scan_length in H. discriminate.
Qed.

Lemma concat_cons (sep x : string) (l : list string) :
  l <> [] -> String.concat sep (x :: l) = (x ++ sep ++ String.concat sep l)%string.
Proof. destruct l; [congruence|reflexivity]. Qed.

(** Joining the segments with the separator gives the string back. *)
Lemma split_scan_join (sep : string) (n : nat) :
  sep <> "" ->
  forall s cur,
    String.length s <= n ->
    String.concat sep (PyStr.split_scan sep 0 cur s)
    = (string_of_list_ascii (rev cur) ++ s)%string.
Proof.
  intros Hsep. induction n as [|n IH]; intros s cur Hlen.
  - destruct s; [|cbn in Hlen; lia].
    cbn [PyStr.split_scan String.concat]. now rewrite append_nil_r.
  - destruct s as [|c s].
    + cbn [PyStr.split_scan String.concat]. now rewrite append_nil_r.
    + cbn [PyStr.split_scan].
      destruct (String.prefix sep (String c s)) eqn:Ep.
      * destruct sep as [|c0 sep]; [congruence|].
        destruct (prefix_append _ _ Ep) as [rest Hrest].
        rewrite append_cons in Hrest. injection Hrest as -> ->.
        replace (String.length (String c0 sep) - 1) with (String.length sep)
          by (cbn [String.length]; lia).
        rewrite split_scan_skip.
        rewrite concat_cons by apply split_scan_not_nil.
        rewrite (IH rest []).
        -- reflexivity.
        -- cbn [String.length] in Hlen. rewrite length_append in Hlen. lia.
      * rewrite (IH s (c :: cur)) by (cbn in Hlen; lia).
        cbn [rev]. apply string_of_list_snoc.
Qed.

Lemma split_join (s sep : string) (parts : list string) :
  PyStr.split s sep = Some parts -> PyStr.join sep parts = s.
Proof.
  unfold PyStr.split, PyStr.join.
  destruct sep as [|c sep]; [discriminate|]. intros [= <-].
  now rewrite (split_scan_join _ (String.length s)).
Qed.

(** A line that splits into a name and a value is the name, the divider and
    the value. *)
Lemma split_two_parts (s sep key value : string) :
  PyStr.split s sep = Some [key; value] -> s = (key ++ sep ++ value)%string.
Proof. intros H. apply split_join in H. now rewrite <- H. Qed.

End StringFacts.

(** ** Dictionaries *)

Section DictFacts.

Implicit Types (d : WhoisDocument) (k : string) (v : value).

Lemma get_set_eq d k v : Dict.get k (Dict.set k v d) = Some v.
Proof.
  induction d as [|[k' v'] d IH]; cbn.
  - now rewrite String.eqb_refl.
  - destruct (String.eqb k k') eqn:E; cbn; rewrite E; auto.
Qed.

Lemma get_set_ne d k k' v :
  k <> k' -> Dict.get k' (Dict.set k v d) = Dict.get k' d.
Proof.
  intros Hne. induction d as [|[k0 v0] d IH]; cbn.
  - apply not_eq_sym, String.eqb_neq in Hne. now rewrite Hne.
  - destruct (String.eqb k k0) eqn:E; cbn.
    + apply String.eqb_eq in E. subst k0.
      apply not_eq_sym, String.eqb_neq in Hne. now rewrite Hne.
    + now rewrite IH.
Qed.

Lemma keys_set_present d k v :
  Dict.contains k d = true -> Dict.keys (Dict.set k v d) = Dict.keys d.
Proof.
  unfold Dict.contains.
  induction d as [|[k0 v0] d IH]; cbn; [discriminate|].
  destruct (String.eqb k k0) eqn:E; cbn; [reflexivity|].
  intros H. f_equal. now apply IH.
Qed.

Lemma keys_set_absent d k v :
  Dict.contains k d = false -> Dict.keys (Dict.set k v d) = Dict.keys d ++ [k].
Proof.
  unfold Dict.contains.
  induction d as [|[k0 v0] d IH]; cbn; [reflexivity|].
  destruct (String.eqb k k0) eqn:E; cbn; [discriminate|].
  intros H. f_equal. now apply IH.
Qed.

Lemma get_some_in d k v : Dict.get k d = Some v -> In (k, v) d.
Proof.
  induction d as [|[k0 v0] d IH]; cbn; [discriminate|].
  destruct (String.eqb k k0) eqn:E.
  - apply String.eqb_eq in E. intros [= ->]. left. now subst.
  - intros H. right. now apply IH.
Qed.

Lemma contains_iff d k : Dict.contains k d = true <-> In k (Dict.keys d).
Proof.
  unfold Dict.contains.
  induction d as [|[k0 v0] d IH]; cbn; [split; [discriminate|tauto]|].
  destruct (String.eqb k k0) eqn:E.
  - apply String.eqb_eq in E. subst. tauto.
  - apply String.eqb_neq in E. rewrite IH. split; [tauto|].
    intros [H|H]; [congruence|tauto].
Qed.

Lemma in_get d k v : Dict.wf d -> In (k, v) d -> Dict.get k d = Some v.
Proof.
  unfold Dict.wf.
  induction d as [|[k0 v0] d IH]; cbn; [tauto|].
  intros Hnd [H|H].
  - inversion H; subst. now rewrite String.eqb_refl.
  - inversion Hnd as [|? ? Hnotin Hnd']; subst.
    destruct (String.eqb k k0) eqn:E.
    + apply String.eqb_eq in E. subst. exfalso. apply Hnotin.
      apply (in_map fst) in H. exact H.
    + now apply IH.
Qed.

Lemma in_set d k v k' v' :
  In (k', v') (Dict.set k v d) -> (k' = k /\ v' = v) \/ In (k', v') d.
Proof.
  induction d as [|[k0 v0] d IH]; cbn.
  - intros [[= <- <-]|[]]. now left.
  - destruct (String.eqb k k0) eqn:E; cbn.
    + apply String.eqb_eq in E. subst.
      intros [[= <- <-]|H]; [now left|right; now right].
    + intros [H|H]; [right; now left|].
      destruct (IH H) as [?|?]; [now left|right; now right].
Qed.

Lemma wf_set d k v : Dict.wf d -> Dict.wf (Dict.set k v d).
Proof.
  intros Hwf. destruct (Dict.contains k d) eqn:E; unfold Dict.wf.
  - now rewrite keys_set_present.
  - rewrite keys_set_absent by assumption.
    apply List.NoDup_app; [exact Hwf|repeat constructor; cbn; tauto|].
    intros x Hx [<-|[]].
    apply contains_iff in Hx. congruence.
Qed.


Lemma is_empty_keys d : Dict.is_empty d = true <-> Dict.keys d = [].
Proof. destruct d; cbn; split; congruence. Qed.

End DictFacts.

(** ** Finalization *)

Section JoinValues.

Variable join_with : string.

Lemma join_values_unfold (d : WhoisDocument) :
  join_values d join_with = fold_left (join_at join_with) (Dict.keys d) d.
Proof. reflexivity. Qed.

Lemma joined_idem (sep : string) (v : value) :
  joined sep (joined join_with v) = joined join_with v.
Proof. now destruct v. Qed.

Lemma get_join_at_eq (d : WhoisDocument) (k : string) :
  Dict.get k (join_at join_with d k) = option_map (joined join_with) (Dict.get k d).
Proof.
  unfold join_at. destruct (Dict.get k d) as [[parts|s]|] eqn:E.
  - now rewrite get_set_eq.
  - now rewrite E.
  - now rewrite E.
Qed.

Lemma get_join_at_ne (d : WhoisDocument) (k k' : string) :
  k <> k' -> Dict.get k' (join_at join_with d k) = Dict.get k' d.
Proof.
  intros Hne. unfold join_at.
  destruct (Dict.get k d) as [[parts|s]|]; auto using get_set_ne.
Qed.

Lemma keys_join_at (d : WhoisDocument) (k : string) :
  Dict.keys (join_at join_with d k) = Dict.keys d.
Proof.
  unfold join_at. destruct (Dict.get k d) as [[parts|s]|] eqn:E; auto.
  apply keys_set_present. unfold Dict.contains. now rewrite E.
Qed.

Lemma keys_fold_join_at (ks : list string) :
  forall d, Dict.keys (fold_left (join_at join_with) ks d) = Dict.keys d.
Proof.
  induction ks as [|k ks IH]; intros d; cbn; [reflexivity|].
  now rewrite IH, keys_join_at.
Qed.

(** The loop joins the value at every key it visits, and no other. *)
Lemma get_fold_join_at (ks : list string) :
  forall d k,
    Dict.get k (fold_left (join_at join_with) ks d)
    = if in_dec string_dec k ks
      then option_map (joined join_with) (Dict.get k d)
      else Dict.get k d.
Proof.
  induction ks as [|k0 ks IH]; intros d k; cbn [fold_left]; [reflexivity|].
  rewrite IH.
  destruct (string_dec k0 k) as [->|Hne].
  - rewrite get_join_at_eq.
    destruct (in_dec string_dec k (k :: ks)) as [_|Hn]; [|exfalso; apply Hn; now left].
    destruct (in_dec string_dec k ks); [|reflexivity].
    destruct (Dict.get k d) as [v|]; cbn; [|reflexivity].
    now rewrite joined_idem.
  - rewrite get_join_at_ne by assumption.
    destruct (in_dec string_dec k ks) as [Hin|Hn];
      destruct (in_dec string_dec k (k0 :: ks)) as [Hin'|Hn']; try reflexivity.
    + exfalso. apply Hn'. now right.
    + exfalso. destruct Hin' as [?|?]; [congruence|contradiction].
Qed.

Lemma keys_join_values (d : WhoisDocument) :
  Dict.keys (join_values d join_with) = Dict.keys d.
Proof. rewrite join_values_unfold. apply keys_fold_join_at. Qed.

Lemma get_join_values (d : WhoisDocument) (k : string) :
  Dict.get k (join_values d join_with)
  = option_map (joined join_with) (Dict.get k d).
Proof.
  rewrite join_values_unfold, get_fold_join_at.
  destruct (in_dec string_dec k (Dict.keys d)) as [_|Hn]; [reflexivity|].
  destruct (Dict.get k d) as [v|] eqn:E; [|reflexivity].
  exfalso. apply Hn, contains_iff. unfold Dict.contains. now rewrite E.
Qed.

Lemma join_values_not_empty (d : WhoisDocument) :
  Dict.is_empty d = false -> Dict.is_empty (join_values d join_with) = false.
Proof.
  intros H. destruct (Dict.is_empty (join_values d join_with)) eqn:E; [|reflexivity].
  apply is_empty_keys in E. rewrite keys_join_values in E.
  apply is_empty_keys in E. congruence.
Qed.

Lemma wf_join_values (d : WhoisDocument) :
  Dict.wf d -> Dict.wf (join_values d join_with).
Proof. unfold Dict.wf. now rewrite keys_join_values. Qed.

Lemma join_values_finalized (d : WhoisDocument) :
  Dict.wf d -> finalized (join_values d join_with).
Proof.
  intros Hwf k v Hin.
  apply in_get in Hin; [|now apply wf_join_values].
  rewrite get_join_values in Hin.
  destruct (Dict.get k d) as [[parts|s]|]; cbn in Hin; inversion Hin; eauto.
Qed.

End JoinValues.

(** A loop of [join_values] over keys whose values are no lists changes
    nothing. *)
Lemma fold_join_at_fixed (sep : string) (ks : list string) (d : WhoisDocument) :
  (forall k, In k ks -> forall parts, Dict.get k d <> Some (Fragments parts)) ->
  fold_left (join_at sep) ks d = d.
Proof.
  induction ks as [|k ks IH]; intros H; cbn [fold_left]; [reflexivity|].
  assert (E : join_at sep d k = d).
  { unfold join_at. destruct (Dict.get k d) as [[parts|s]|] eqn:E; auto.
    exfalso. apply (H k (or_introl eq_refl) parts E). }
  rewrite E. apply IH. intros k' Hk'. apply H. now right.
Qed.

(** C10. Finalization is idempotent: a second call of [join_values], with
    the same separator or another one, leaves the document as the first call
    left it, since after the first call the value at every key is a single
    string and no list of fragments. *)
Theorem join_values_idempotent (d : WhoisDocument) (join_with again : string) :
  join_values (join_values d join_with) join_with = join_values d join_with
  /\ join_values (join_values d join_with) again = join_values d join_with
  /\ (forall k parts,
         Dict.get k (join_values d join_with) <> Some (Fragments parts)).
Proof.
  assert (Hnolist : forall k parts,
             Dict.get k (join_values d join_with) <> Some (Fragments parts)).
  { intros k parts. rewrite get_join_values.
    destruct (Dict.get k d) as [[p|s]|]; cbn; congruence. }
  assert (Hfix : forall sep,
             join_values (join_values d join_with) sep = join_values d join_with).
  { intros sep. rewrite (join_values_unfold sep).
    apply fold_join_at_fixed. intros k _. apply Hnolist. }
  auto.
Qed.

(** ** The iteration, one call of [__next__] at a time *)

Lemma iterate_next (p : WhoisTextParser) :
  iterate p
  = match __next__ p with
    | (Return d, p') => yield d (iterate p')
    | (StopIteration, _) => ([], Exhausted)
    | (Raised e, _) => ([], Aborted e)
    end.
Proof.
  rewrite iterate_equation_1. unfold inspect.
  assert (H : forall x (E : __next__ p = x),
             iterate_unfold_clause_1 p (exist _ x E)
             = match x with
               | (Return d, p') => yield d (iterate p')
               | (StopIteration, _) => ([], Exhausted)
               | (Raised e, _) => ([], Aborted e)
               end).
  { intros [[d| |e] p'] E; reflexivity. }
  apply H.
Qed.

(** The loop reads the configuration of the parser and nothing else of it. *)
Lemma for_line_in_file_advance (self : WhoisTextParser) (file0 : list string)
    (counter0 : nat) (file : list string) :
  forall document last counter,
    for_line_in_file (advance self file0 counter0) document last file counter
    = for_line_in_file self document last file counter.
Proof.
  induction file as [|line file IH]; intros document last counter;
    cbn [for_line_in_file]; [reflexivity|].
  change (_is_document_divider_found (advance self file0 counter0) line)
    with (_is_document_divider_found self line).
  change (_parse_line (advance self file0 counter0) line)
    with (_parse_line self line).
  change (advance (advance self file0 counter0) file (S counter))
    with (advance self file (S counter)).
  destruct (_is_document_divider_found self line).
  - now rewrite IH.
  - destruct (_parse_line self line) as [[attribute value]|e]; [|reflexivity].
    rewrite IH.
    destruct (record_line document last attribute value); now rewrite ?IH.
Qed.

Lemma stream_advance (self : WhoisTextParser) (file0 : list string)
    (counter0 : nat) (file : list string) :
  forall document last,
    stream (advance self file0 counter0) document last file
    = stream self document last file.
Proof.
  induction file as [|line file IH]; intros document last;
    cbn [stream]; [reflexivity|].
  change (_is_document_divider_found (advance self file0 counter0) line)
    with (_is_document_divider_found self line).
  change (_parse_line (advance self file0 counter0) line)
    with (_parse_line self line).
  destruct (_is_document_divider_found self line).
  - now rewrite !IH.
  - destruct (_parse_line self line) as [[attribute value]|e]; [|reflexivity].
    rewrite IH.
    destruct (record_line document last attribute value); now rewrite ?IH.
Qed.

Lemma resume_for_line_in_file (self : WhoisTextParser) (file : list string) :
  forall document last counter,
    resume (for_line_in_file self document last file counter)
    = stream self document last file.
Proof.
  induction file as [|line file IH]; intros document last counter;
    cbn [for_line_in_file stream].
  - destruct (Dict.is_empty document); cbn; [reflexivity|].
    rewrite iterate_next. unfold __next__. reflexivity.
  - destruct (_is_document_divider_found self line).
    + destruct (Dict.is_empty document); [apply IH|].
      cbn [resume]. f_equal.
      rewrite iterate_next. unfold __next__.
      cbn [_file _lines_processed_counter advance].
      rewrite for_line_in_file_advance. apply IH.
    + destruct (_parse_line self line) as [[attribute value]|e]; [|reflexivity].
      destruct (_ && _); [apply IH|].
      destruct (record_line document last attribute value); [apply IH|reflexivity].
Qed.

(** The iteration over a parser yields what one pass over its unread lines
    yields. *)
Lemma iterate_stream (p : WhoisTextParser) :
  iterate p = stream p [] (Some "") (_file p).
Proof.
  rewrite iterate_next. unfold __next__.
  apply (resume_for_line_in_file p (_file p) [] (Some "") (_lines_processed_counter p)).
Qed.

(** ** Lines *)

Section Lines.

Variable self : WhoisTextParser.

Lemma strip_if_truthy (s : string) :
  (if PyStr.truthy s then Some (PyStr.strip s) else Some s) = Some (PyStr.strip s).
Proof. now destruct s. Qed.

Lemma classify_boundary (line : string) :
  classify self line = DocumentBoundary
  <-> _is_document_divider_found self line = true.
Proof.
  unfold classify. destruct (_is_document_divider_found self line).
  - tauto.
  - split; [|discriminate].
    destruct (_ || _); [discriminate|]. destruct (_ || _); discriminate.
Qed.

Lemma parse_comment (line : string) :
  classify self line = Comment -> _parse_line self line = Ok (None, None).
Proof.
  unfold classify, _parse_line.
  destruct (_is_document_divider_found self line); [discriminate|].
  destruct (String.eqb line PyStr.LF
            || PyStr.startswith line (_commentary_symbol self)); [reflexivity|].
  destruct (_ || _); discriminate.
Qed.

Lemma startswith_nonempty (line p : string) :
  p <> "" -> PyStr.startswith line p = true -> PyStr.truthy line = true.
Proof.
  destruct line; [|reflexivity]. destruct p; [congruence|discriminate].
Qed.

Lemma parse_continuation (line : string) :
  classify self line = Continuation ->
  _parse_line self line = Ok (None, Some (PyStr.strip line)).
Proof.
  unfold classify, _parse_line.
  destruct (_is_document_divider_found self line); [discriminate|].
  destruct (String.eqb line PyStr.LF
            || PyStr.startswith line (_commentary_symbol self)); [discriminate|].
  destruct (PyStr.startswith line " " || PyStr.startswith line PyStr.TAB) eqn:E;
    [|discriminate].
  intros _. cbn -[PyStr.strip PyStr.truthy].
  assert (Ht : PyStr.truthy line = true).
  { apply orb_true_iff in E as [E|E];
      eapply startswith_nonempty; try exact E; discriminate. }
  now rewrite Ht.
Qed.

Lemma parse_key_value (line : string) :
  classify self line = KeyValue ->
  _parse_line self line
  = match PyStr.split line (_attribute_divider self) with
    | Some [key; value] => Ok (Some (PyStr.strip key), Some (PyStr.strip value))
    | _ => Raise ValueError
    end.
Proof.
  unfold classify, _parse_line.
  destruct (_is_document_divider_found self line); [discriminate|].
  destruct (String.eqb line PyStr.LF
            || PyStr.startswith line (_commentary_symbol self)); [discriminate|].
  destruct (PyStr.startswith line " " || PyStr.startswith line PyStr.TAB);
    [discriminate|].
  intros _.
  destruct (PyStr.split line (_attribute_divider self)) as [[|k [|v [|x parts]]]|];
    try reflexivity.
  cbn -[PyStr.strip PyStr.truthy]. now rewrite !strip_if_truthy.
Qed.

(** [_parse_line] raises nothing but [ValueError]. *)
Lemma parse_line_raises (line : string) (e : exn) :
  _parse_line self line = Raise e -> e = ValueError.
Proof.
  unfold _parse_line.
  destruct (_ || _); [discriminate|]. destruct (_ || _); [discriminate|].
  destruct (PyStr.split line (_attribute_divider self)) as [[|k [|v [|x parts]]]|];
    cbn; congruence.
Qed.

(** The three shapes of what [_parse_line] returns. *)
Lemma parse_line_shape (line : string) (attribute value : option string) :
  _parse_line self line = Ok (attribute, value) ->
  (attribute = None /\ value = None)
  \/ (attribute = None /\ value = Some (PyStr.strip line))
  \/ (exists k v, attribute = Some (PyStr.strip k) /\ value = Some (PyStr.strip v)
                  /\ PyStr.split line (_attribute_divider self) = Some [k; v]).
Proof.
  unfold _parse_line.
  destruct (_ || _); [cbn; intros [= <- <-]; now left|].
  destruct (_ || _) eqn:E.
  - cbn -[PyStr.strip PyStr.truthy]. rewrite strip_if_truthy.
    intros [= <- <-]. right. now left.
  - destruct (PyStr.split line (_attribute_divider self)) as [[|k [|v [|x parts]]]|];
      try discriminate.
    cbn -[PyStr.strip PyStr.truthy]. rewrite !strip_if_truthy.
    intros [= <- <-]. right. right. eauto.
Qed.

End Lines.

(** ** The state of the loop *)

Section Building.

Lemma building_start : building [] (Some "").
Proof.
  split.
  - constructor.
  - intros k v [].
  - intros k [].
  - discriminate.
Qed.

Lemma building_forget (document : WhoisDocument) (last : option string) :
  building document last -> building document None.
Proof. intros [H1 H2 H3 _]. split; auto. discriminate. Qed.

Lemma building_set (document : WhoisDocument) (last : option string)
    (k : string) (parts : list string) :
  building document last -> trimmed k ->
  building (Dict.set k (Fragments parts) document) (Some k).
Proof.
  intros [H1 H2 H3 _] Hk. split.
  - now apply wf_set.
  - intros k' v' Hin. apply in_set in Hin as [[_ ->]|Hin]; eauto.
  - intros k' Hin.
    destruct (Dict.contains k document) eqn:E.
    + rewrite keys_set_present in Hin by assumption. auto.
    + rewrite keys_set_absent in Hin by assumption.
      apply in_app_or in Hin as [Hin|[<-|[]]]; auto.
  - intros _. exists k. split; [reflexivity|].
    unfold Dict.contains. now rewrite get_set_eq.
Qed.

Lemma building_get (document : WhoisDocument) (last : option string) (k : string) :
  building document last -> Dict.contains k document = true ->
  exists parts, Dict.get k document = Some (Fragments parts).
Proof.
  intros [_ H2 _ _]. unfold Dict.contains.
  destruct (Dict.get k document) as [v|] eqn:E; [|discriminate].
  intros _. apply get_some_in in E. destruct (H2 _ _ E) as [parts ->]. eauto.
Qed.

Lemma building_empty (document : WhoisDocument) (last : option string) :
  building document last -> Dict.is_empty document = true -> truthy last = false.
Proof.
  intros [_ _ _ H4] He. destruct (truthy last) eqn:E; [|reflexivity].
  destruct (H4 eq_refl) as (k & _ & Hk).
  destruct document; [discriminate Hk|discriminate He].
Qed.

(** A line that the loop does not skip is recorded without an exception,
    and leaves a state of the loop. *)
Lemma record_line_building (self : WhoisTextParser) (line : string)
    (document : WhoisDocument) (last attribute value : option string) :
  building document last ->
  _parse_line self line = Ok (attribute, value) ->
  (match attribute with None => true | Some _ => false end)
    && negb (truthy last) = false ->
  exists document',
    record_line document last attribute value = Ok document'
    /\ building document' attribute.
Proof.
  intros Hb Hp Hskip.
  apply parse_line_shape in Hp as [[-> ->]|[[-> ->]|(k & v & -> & -> & _)]].
  - exists document. split; [reflexivity|]. eapply building_forget; eauto.
  - cbn in Hskip. apply negb_false_iff in Hskip.
    cbn [record_line].
    destruct (PyStr.truthy (PyStr.strip line));
      [|exists document; split; [reflexivity|eapply building_forget; eauto]].
    destruct (building_last _ _ Hb Hskip) as (k & -> & Hk).
    destruct (building_get _ _ _ Hb Hk) as [parts Hget].
    cbn [append_fragment]. rewrite Hget.
    eexists. split; [reflexivity|].
    eapply building_forget, building_set; eauto.
    apply (building_trimmed _ _ Hb), contains_iff, Hk.
  - cbn [record_line].
    destruct (Dict.contains (PyStr.strip k) document) eqn:E; cbn [negb].
    + destruct (building_get _ _ _ Hb E) as [parts Hget].
      cbn [append_fragment]. rewrite Hget.
      eexists. split; [reflexivity|].
      eapply building_set; eauto. apply strip_trimmed.
    + eexists. split; [reflexivity|].
      eapply building_set; eauto. apply strip_trimmed.
Qed.

End Building.

(** ** The stream of documents *)

Section Stream.

Variable self : WhoisTextParser.

Lemma parse_lines_stream (file : list string) :
  parse_lines self file = stream self [] (Some "") file.
Proof.
  unfold parse_lines. rewrite iterate_stream. cbn [_file advance].
  apply stream_advance.
Qed.

(** [parse_file] is [parse_lines] for the default configuration. *)
Lemma parse_file_lines (file : list string) :
  parse_file file = parse_lines (WhoisTextParser_default []) file.
Proof. reflexivity. Qed.

Lemma divider_found :
  _is_document_divider_found self (_document_divider_pattern self) = true.
Proof. apply String.eqb_refl. Qed.

Lemma stream_divider (document : WhoisDocument) (last : option string)
    (file : list string) :
  stream self document last (_document_divider_pattern self :: file)
  = if Dict.is_empty document
    then stream self document last file
    else yield (join_values document PyStr.LF) (stream self [] (Some "") file).
Proof. cbn [stream]. now rewrite divider_found. Qed.

(** One line further in a state of the loop: the case analysis that the
    loop body makes, with the state kept a state of the loop. *)
Lemma stream_cases (P : list WhoisDocument * ending -> Prop)
    (document : WhoisDocument) (last : option string)
    (line : string) (file : list string) :
  building document last ->
  (_is_document_divider_found self line = true ->
   Dict.is_empty document = true ->
   P (stream self document last file)) ->
  (_is_document_divider_found self line = true ->
   Dict.is_empty document = false ->
   P (yield (join_values document PyStr.LF) (stream self [] (Some "") file))) ->
  (_is_document_divider_found self line = false ->
   _parse_line self line = Raise ValueError ->
   P ([], Aborted ValueError)) ->
  (forall value,
      _is_document_divider_found self line = false ->
      _parse_line self line = Ok (None, value) ->
      truthy last = false ->
      P (stream self document last file)) ->
  (forall attribute value document',
      _is_document_divider_found self line = false ->
      _parse_line self line = Ok (attribute, value) ->
      (match attribute with None => true | Some _ => false end)
        && negb (truthy last) = false ->
      record_line document last attribute value = Ok document' ->
      building document' attribute ->
      P (stream self document' attribute file)) ->
  P (stream self document last (line :: file)).
Proof.
  intros Hb Hskip Hyield Hraise Hdrop Hrecord. cbn [stream].
  destruct (_is_document_divider_found self line) eqn:Ed.
  - destruct (Dict.is_empty document) eqn:Ee; auto.
  - destruct (_parse_line self line) as [[attribute value]|e] eqn:Ep.
    + destruct (_ && _) eqn:Es.
      * apply andb_true_iff in Es as [Ea Et]. apply negb_true_iff in Et.
        destruct attribute; [discriminate|]. eapply Hdrop; eassumption || reflexivity.
      * destruct (record_line_building self line document last attribute value
                    Hb Ep Es) as (document' & Hr & Hb').
        rewrite Hr. eapply Hrecord; eassumption || reflexivity.
    + pose proof (parse_line_raises _ _ _ Ep) as ->. auto.
Qed.

(** Every document of the stream is a finalized state of the loop that
    holds an attribute. *)
Lemma stream_yields (Q : WhoisDocument -> Prop) :
  (forall document last,
      building document last -> Dict.is_empty document = false ->
      Q (join_values document PyStr.LF)) ->
  forall file document last,
    building document last ->
    Forall Q (fst (stream self document last file)).
Proof.
  intros HQ. induction file as [|line file IH]; intros document last Hb.
  - cbn [stream]. destruct (Dict.is_empty document) eqn:E; cbn; eauto.
  - apply stream_cases; auto.
    intros _ He. cbn. constructor; eauto using building_start.
Qed.

(** The iteration is exhausted, or it is aborted by a [ValueError]. *)
Lemma stream_ending (file : list string) :
  forall document last,
    building document last ->
    snd (stream self document last file) = Exhausted
    \/ snd (stream self document last file) = Aborted ValueError.
Proof.
  induction file as [|line file IH]; intros document last Hb.
  - cbn [stream]. destruct (Dict.is_empty document); now left.
  - apply stream_cases; auto.
    intros _ _. cbn [yield snd]. apply IH, building_start.
Qed.

(** Two continuations that agree in every state of the loop agree after
    any lines read before them. *)
Lemma stream_congruence (A B : list string) :
  (forall document last,
      building document last ->
      stream self document last A = stream self document last B) ->
  forall pre document last,
    building document last ->
    stream self document last (pre ++ A) = stream self document last (pre ++ B).
Proof.
  intros HAB. induction pre as [|line pre IH]; intros document last Hb; [auto|].
  cbn [app stream].
  destruct (_is_document_divider_found self line).
  - destruct (Dict.is_empty document); [auto|].
    f_equal. apply IH, building_start.
  - destruct (_parse_line self line) as [[attribute value]|e] eqn:Ep; [|reflexivity].
    destruct (_ && _) eqn:Es; [auto|].
    destruct (record_line_building self line document last attribute value
                Hb Ep Es) as (document' & -> & Hb').
    auto.
Qed.

End Stream.

(** ** Document dividers and the end of the stream *)

Section Dividers.

Variable self : WhoisTextParser.

Let divider : string := _document_divider_pattern self.

(** Divider lines met while the document is empty are passed over. *)
Lemma stream_dividers_empty (n : nat) (post : list string)
    (document : WhoisDocument) (last : option string) :
  Dict.is_empty document = true ->
  stream self document last (repeat divider n ++ post)
  = stream self document last post.
Proof.
  intros He. induction n as [|n IH]; [reflexivity|].
  cbn [repeat app]. unfold divider at 1. rewrite stream_divider, He. exact IH.
Qed.

(** A run of divider lines is one boundary. *)
Lemma stream_dividers_run (n : nat) (post : list string)
    (document : WhoisDocument) (last : option string) :
  stream self document last (repeat divider (S n) ++ post)
  = stream self document last (divider :: post).
Proof.
  cbn [repeat app]. unfold divider at 1 3. rewrite !stream_divider.
  destruct (Dict.is_empty document) eqn:He.
  - now apply stream_dividers_empty.
  - f_equal. now apply stream_dividers_empty.
Qed.


Lemma classify_not_boundary (line : string) :
  classify self line <> DocumentBoundary ->
  _is_document_divider_found self line = false.
Proof.
  intros H. destruct (_is_document_divider_found self line) eqn:E; [|reflexivity].
  now apply classify_boundary in E.
Qed.

(** Lines without an attribute, met while the document is empty, are
    passed over. *)
Lemma stream_skip_no_attribute (lines post : list string)
    (document : WhoisDocument) (last : option string) :
  Dict.is_empty document = true ->
  truthy last = false ->
  Forall (fun line => classify self line <> KeyValue) lines ->
  stream self document last (lines ++ post) = stream self document last post.
Proof.
  intros He Ht. induction 1 as [|line lines Hline _ IH]; [reflexivity|].
  cbn [app stream]. rewrite He.
  destruct (_is_document_divider_found self line) eqn:Ed; [exact IH|].
  destruct (classify self line) eqn:Ec.
  - apply classify_boundary in Ec. congruence.
  - rewrite (parse_comment _ _ Ec), Ht. exact IH.
  - rewrite (parse_continuation _ _ Ec), Ht. exact IH.
  - congruence.
Qed.


(** After a divider line, lines without an attribute are passed over. *)
Lemma stream_divider_no_attribute (lines post : list string)
    (document : WhoisDocument) (last : option string) :
  building document last ->
  Forall (fun line => classify self line <> KeyValue) lines ->
  stream self document last (divider :: lines ++ post)
  = stream self document last (divider :: post).
Proof.
  intros Hb Hlines. unfold divider. rewrite !stream_divider.
  destruct (Dict.is_empty document) eqn:He.
  - apply stream_skip_no_attribute; eauto using building_empty.
  - f_equal. now apply stream_skip_no_attribute.
Qed.


End Dividers.

(** C7. The parser never yields an empty document: every document that the
    iteration yields holds an attribute; a run of consecutive divider
    lines, wherever it stands, parses as a single divider line; divider
    lines before any other line are passed over; and so are, after a divider
    line, all the lines up to the next attribute line. *)
Theorem never_an_empty_document (self : WhoisTextParser) :
  (forall file,
      Forall (fun d => Dict.is_empty d = false) (fst (parse_lines self file)))
  /\ (forall pre n post,
         parse_lines self
           (pre ++ repeat (_document_divider_pattern self) (S n) ++ post)
         = parse_lines self (pre ++ _document_divider_pattern self :: post))
  /\ (forall n post,
         parse_lines self (repeat (_document_divider_pattern self) n ++ post)
         = parse_lines self post)
  /\ (forall pre lines post,
         Forall (fun line => classify self line <> KeyValue) lines ->
         parse_lines self (pre ++ _document_divider_pattern self :: lines ++ post)
         = parse_lines self (pre ++ _document_divider_pattern self :: post)).
Proof.
  split; [|split; [|split]].
  - intros file. rewrite parse_lines_stream.
    apply stream_yields; [|apply building_start].
    intros document last _ He. now apply join_values_not_empty.
  - intros pre n post. rewrite !parse_lines_stream.
    apply stream_congruence; [|apply building_start].
    intros document last _. apply stream_dividers_run.
  - intros n post. rewrite !parse_lines_stream.
    now apply stream_dividers_empty.
  - intros pre lines post Hlines. rewrite !parse_lines_stream.
    apply stream_congruence; [|apply building_start].
    intros document last Hb. now apply stream_divider_no_attribute.
Qed.

Lemma never_an_empty_document_witness :
  Forall (fun line => classify (WhoisTextParser_default []) line <> KeyValue)
    [nl "# comment"; nl ""; nl " orphan"; nl ""]
  /\ parse_lines (WhoisTextParser_default [])
       ([nl "a: 1"] ++ nl "" :: [nl "# comment"; nl ""; nl " orphan"; nl ""]
          ++ [nl "b: 2"])
     = parse_lines (WhoisTextParser_default []) ([nl "a: 1"] ++ nl "" :: [nl "b: 2"]).
Proof.
  assert (H : Forall (fun line => classify (WhoisTextParser_default []) line <> KeyValue)
                [nl "# comment"; nl ""; nl " orphan"; nl ""]).
  { repeat constructor; discriminate. }
  split; [exact H|].
  destruct (never_an_empty_document (WhoisTextParser_default [])) as (_ & _ & _ & Hrun).
  exact (Hrun [nl "a: 1"] _ [nl "b: 2"] H).
Defined.



(** ** Lines that do not split into a name and a value *)

Section FormatErrors.

Variable self : WhoisTextParser.

Lemma parse_malformed (line : string) :
  classify self line = KeyValue ->
  segments line (_attribute_divider self) <> 2 ->
  _parse_line self line = Raise ValueError.
Proof.
  intros Hc Hs. rewrite (parse_key_value _ _ Hc). unfold segments in Hs.
  destruct (PyStr.split line (_attribute_divider self)) as [[|k [|v [|x parts]]]|];
    try reflexivity.
  now contradict Hs.
Qed.

(** The same in terms of occurrences: a line without the divider, or with
    the divider twice or more, raises. *)
Lemma parse_occurrences (line : string) :
  classify self line = KeyValue ->
  _attribute_divider self <> "" ->
  count line (_attribute_divider self) <> 1 ->
  _parse_line self line = Raise ValueError.
Proof.
  intros Hc Hsep Hn. apply parse_malformed; [exact Hc|].
  rewrite segments_count by exact Hsep. lia.
Qed.

(** A line with the divider exactly once is the name, the divider and the
    value, and parses into the two, trimmed. *)
Lemma parse_well_formed (line : string) :
  classify self line = KeyValue ->
  segments line (_attribute_divider self) = 2 ->
  exists key value,
    line = (key ++ _attribute_divider self ++ value)%string
    /\ _parse_line self line = Ok (Some (PyStr.strip key), Some (PyStr.strip value)).
Proof.
  intros Hc Hs. rewrite (parse_key_value _ _ Hc). unfold segments in Hs.
  destruct (PyStr.split line (_attribute_divider self)) as [[|k [|v [|x parts]]]|] eqn:E;
    try discriminate.
  exists k, v. split; [now apply split_two_parts|reflexivity].
Qed.

Lemma stream_malformed (line : string) (file : list string)
    (document : WhoisDocument) (last : option string) :
  classify self line = KeyValue ->
  segments line (_attribute_divider self) <> 2 ->
  stream self document last (line :: file) = ([], Aborted ValueError).
Proof.
  intros Hc Hs. cbn [stream].
  rewrite classify_not_boundary by congruence.
  now rewrite parse_malformed.
Qed.

(** Whatever is read before a malformed line, the iteration is aborted. *)
Lemma stream_aborted (line : string) (post : list string) :
  classify self line = KeyValue ->
  segments line (_attribute_divider self) <> 2 ->
  forall pre document last,
    building document last ->
    snd (stream self document last (pre ++ line :: post)) = Aborted ValueError.
Proof.
  intros Hc Hs. induction pre as [|line0 pre IH]; intros document last Hb.
  - cbn [app]. now rewrite stream_malformed.
  - cbn [app]. apply stream_cases; auto.
    intros _ _. cbn [yield snd]. apply IH, building_start.
Qed.

End FormatErrors.

(** C9. A line that is no divider, comment, blank or whitespace-prefixed
    line and that does not split on the attribute divider into exactly two
    segments makes [_parse_line] raise [ValueError]; [__next__] lets the
    exception through at that line, in whatever state the loop is; and the
    iteration over any file that holds such a line ends aborted by that
    exception, with the lines after it never read. *)
Theorem malformed_line_aborts (self : WhoisTextParser) (line : string) :
  classify self line = KeyValue ->
  segments line (_attribute_divider self) <> 2 ->
  _parse_line self line = Raise ValueError
  /\ (forall document last file counter,
         for_line_in_file self document last (line :: file) counter
         = (Raised ValueError, advance self file (S counter)))
  /\ (forall pre post,
         snd (parse_lines self (pre ++ line :: post)) = Aborted ValueError
         /\ parse_lines self (pre ++ line :: post) = parse_lines self (pre ++ [line])).
Proof.
  intros Hc Hs. split; [|split].
  - now apply parse_malformed.
  - intros document last file counter. cbn [for_line_in_file].
    rewrite classify_not_boundary by congruence.
    now rewrite parse_malformed.
  - intros pre post. rewrite !parse_lines_stream. split.
    + apply stream_aborted; auto using building_start.
    + apply stream_congruence; [|apply building_start].
      intros document last _. now rewrite !stream_malformed.
Qed.

Lemma malformed_line_aborts_witness :
  classify (WhoisTextParser_default []) (nl "no divider here") = KeyValue
  /\ segments (nl "no divider here") ":" <> 2
  /\ _parse_line (WhoisTextParser_default []) (nl "no divider here") = Raise ValueError
  /\ snd (parse_lines (WhoisTextParser_default [])
            [nl "a: 1"; nl ""; nl "no divider here"; nl "b: 2"])
     = Aborted ValueError.
Proof.
  assert (Hc : classify (WhoisTextParser_default []) (nl "no divider here") = KeyValue)
    by reflexivity.
  assert (Hs : segments (nl "no divider here") ":" <> 2) by (vm_compute; lia).
  destruct (malformed_line_aborts (WhoisTextParser_default []) (nl "no divider here")
              Hc Hs) as (Hparse & _ & Hfile).
  split; [exact Hc|split; [exact Hs|split; [exact Hparse|]]].
  exact (proj1 (Hfile [nl "a: 1"; nl ""] [nl "b: 2"])).
Defined.

(** ** Continuation lines without an attribute to continue *)

Section Orphans.

Variable self : WhoisTextParser.

Lemma stream_orphan (line : string) (file : list string)
    (document : WhoisDocument) (last : option string) :
  classify self line = Continuation ->
  truthy last = false ->
  stream self document last (line :: file) = stream self document last file.
Proof.
  intros Hc Ht. cbn [stream].
  rewrite classify_not_boundary by congruence.
  now rewrite (parse_continuation _ _ Hc), Ht.
Qed.

Lemma stream_orphan_after_divider (line : string) (post : list string)
    (document : WhoisDocument) (last : option string) :
  classify self line = Continuation ->
  building document last ->
  stream self document last (_document_divider_pattern self :: line :: post)
  = stream self document last (_document_divider_pattern self :: post).
Proof.
  intros Hc Hb. rewrite !stream_divider.
  destruct (Dict.is_empty document) eqn:He.
  - apply stream_orphan; eauto using building_empty.
  - f_equal. now apply stream_orphan.
Qed.

End Orphans.

(** C4, as the code has it. A whitespace-prefixed line met while no attribute
    is recorded in the current record is passed over: the loop goes on to
    the next line in the same state, without an exception. So such a line
    at the head of a file, or right after a divider line, changes nothing of
    what is yielded. And no iteration is ever aborted by a [KeyError] or an
    [AttributeError]: the lookup of the last attribute never misses. *)
Theorem orphan_continuation_skipped (self : WhoisTextParser) (line : string) :
  classify self line = Continuation ->
  (forall document last file counter,
      building document last ->
      Dict.is_empty document = true ->
      for_line_in_file self document last (line :: file) counter
      = for_line_in_file self document last file (S counter))
  /\ (forall post, parse_lines self (line :: post) = parse_lines self post)
  /\ (forall pre post,
         parse_lines self (pre ++ _document_divider_pattern self :: line :: post)
         = parse_lines self (pre ++ _document_divider_pattern self :: post))
  /\ (forall file,
         snd (parse_lines self file) <> Aborted KeyError
         /\ snd (parse_lines self file) <> Aborted AttributeError).
Proof.
  intros Hc. split; [|split; [|split]].
  - intros document last file counter Hb He. cbn [for_line_in_file].
    rewrite classify_not_boundary by congruence.
    rewrite (parse_continuation _ _ Hc), (building_empty _ _ Hb He).
    reflexivity.
  - intros post. rewrite !parse_lines_stream. now apply stream_orphan.
  - intros pre post. rewrite !parse_lines_stream.
    apply stream_congruence; [|apply building_start].
    intros document last Hb. now apply stream_orphan_after_divider.
  - intros file. rewrite parse_lines_stream.
    destruct (stream_ending self file [] (Some "") building_start) as [E|E];
      rewrite E; split; discriminate.
Qed.

Lemma orphan_continuation_skipped_witness :
  classify (WhoisTextParser_default []) (nl " orphan") = Continuation
  /\ parse_lines (WhoisTextParser_default []) [nl " orphan"; nl "a: 1"]
     = parse_lines (WhoisTextParser_default []) [nl "a: 1"]
  /\ parse_lines (WhoisTextParser_default []) [nl "a: 1"; nl ""; nl " orphan"; nl "b: 2"]
     = parse_lines (WhoisTextParser_default []) [nl "a: 1"; nl ""; nl "b: 2"].
Proof.
  assert (Hc : classify (WhoisTextParser_default []) (nl " orphan") = Continuation)
    by reflexivity.
  destruct (orphan_continuation_skipped (WhoisTextParser_default []) (nl " orphan") Hc)
    as (_ & Hhead & Hafter & _).
  split; [exact Hc|split].
  - exact (Hhead [nl "a: 1"]).
  - exact (Hafter [nl "a: 1"] [nl "b: 2"]).
Defined.

(** C4, as the claim has it, fails: the file below starts with a
    whitespace-prefixed line, and its iteration ends without any exception,
    the line being dropped. *)
Lemma orphan_continuation_no_error :
  parse_file [nl " orphan"; nl "a: 1"] = ([[("a", Joined "1")]], Exhausted)
  /\ ~ (exists e, snd (parse_file [nl " orphan"; nl "a: 1"]) = Aborted e).
Proof.
  split; [reflexivity|]. intros [e H]. discriminate H.
Qed.

(** ** Attribute names *)

(** C5, as the code has it. Every attribute name of every document that the
    iteration yields is trimmed: [strip] leaves it as it is, and it has no
    whitespace at its head and none at its end. The name may be the empty
    string. *)
Theorem attribute_names_trimmed (self : WhoisTextParser) (file : list string)
    (d : WhoisDocument) (k : string) :
  In d (fst (parse_lines self file)) ->
  In k (Dict.keys d) ->
  PyStr.strip k = k /\ no_leading_space k /\ no_trailing_space k.
Proof.
  intros Hd Hk.
  assert (H : Forall (fun d => forall k, In k (Dict.keys d) -> trimmed k)
                (fst (parse_lines self file))).
  { rewrite parse_lines_stream. apply stream_yields; [|apply building_start].
    intros document last Hb _ k'. rewrite keys_join_values.
    apply (building_trimmed _ _ Hb). }
  rewrite List.Forall_forall in H.
  split; [|apply trimmed_ends]; exact (H d Hd k Hk).
Qed.

Lemma attribute_names_trimmed_witness :
  In [("source", Joined "RIPE")]
    (fst (parse_lines (WhoisTextParser_default []) [nl "source  :  RIPE "; nl ""]))
  /\ In "source" (Dict.keys [("source", Joined "RIPE")])
  /\ PyStr.strip "source" = "source"
  /\ no_leading_space "source" /\ no_trailing_space "source".
Proof.
  assert (Hd : In [("source", Joined "RIPE")]
                 (fst (parse_lines (WhoisTextParser_default [])
                         [nl "source  :  RIPE "; nl ""]))).
  { vm_compute. left. reflexivity. }
  assert (Hk : In "source" (Dict.keys [("source", Joined "RIPE")])).
  { vm_compute. left. reflexivity. }
  split; [exact Hd|split; [exact Hk|]].
  exact (attribute_names_trimmed _ _ _ _ Hd Hk).
Defined.

(** C5, as the claim has it, fails: a line that starts with the divider
    gives a document whose attribute name is the empty string. *)
Lemma empty_attribute_name :
  parse_file [nl ":value"] = ([[("", Joined "value")]], Exhausted)
  /\ exists d, In d (fst (parse_file [nl ":value"])) /\ In "" (Dict.keys d).
Proof.
  split; [reflexivity|].
  exists [("", Joined "value")]. split; vm_compute; left; reflexivity.
Qed.

(** ** Equality and hash *)

Section EqualityAndHash.

Implicit Types (d : WhoisDocument).

Lemma wf_items_nodup d : Dict.wf d -> List.NoDup d.
Proof. apply NoDup_map_inv. Qed.

Lemma pair_set_eq_iff d1 d2 :
  pair_set d1 = pair_set d2 <-> (forall item, In item d1 <-> In item d2).
Proof.
  unfold pair_set. rewrite set_eq.
  split; intros H item; specialize (H item);
    rewrite !elem_of_list_to_set, !list_elem_of_In in *; exact H.
Qed.

(** What [__eq__] tests: as many items, and each item of the first
    document found in the second. *)
Lemma eq_test_iff d1 d2 :
  Dict.wf d2 ->
  __eq__ d1 d2 = true
  <-> length d1 = length d2 /\ (forall item, In item d1 -> In item d2).
Proof.
  intros Hwf. unfold __eq__, Dict.items.
  rewrite andb_true_iff, Nat.eqb_eq, forallb_forall.
  split; intros [Hlen Hall]; (split; [exact Hlen|]).
  - intros [k v] Hin. specialize (Hall _ Hin). cbn [fst snd] in Hall.
    destruct (Dict.get k d2) as [v'|] eqn:E; [|discriminate].
    apply bool_decide_eq_true in Hall. subst v'. now apply get_some_in.
  - intros [k v] Hin. cbn [fst snd].
    rewrite (in_get _ _ _ Hwf (Hall _ Hin)).
    now apply bool_decide_eq_true.
Qed.

Lemma eq_iff_pair_set d1 d2 :
  Dict.wf d1 -> Dict.wf d2 ->
  __eq__ d1 d2 = true <-> pair_set d1 = pair_set d2.
Proof.
  intros Hwf1 Hwf2. rewrite eq_test_iff, pair_set_eq_iff by assumption.
  pose proof (wf_items_nodup _ Hwf1) as Hnd1.
  pose proof (wf_items_nodup _ Hwf2) as Hnd2.
  split.
  - intros [Hlen Hincl] item. split; [apply Hincl|].
    apply (NoDup_length_incl Hnd1); [lia|exact Hincl].
  - intros H. split.
    + apply Nat.le_antisymm; apply NoDup_incl_length; auto;
        intros item; apply H.
    + intros item. apply H.
Qed.

Lemma frozenset_finalized d :
  finalized d -> frozenset (Dict.items d) = Some (pair_set d).
Proof.
  unfold Dict.items, pair_set.
  induction d as [|[k v] d IH]; intros Hf; [reflexivity|].
  destruct (Hf k v (or_introl eq_refl)) as [s ->].
  cbn [frozenset]. rewrite IH; [reflexivity|].
  intros k' v' Hin. apply (Hf k' v'). now right.
Qed.

Lemma frozenset_fragments d k parts :
  In (k, Fragments parts) d -> frozenset (Dict.items d) = None.
Proof.
  unfold Dict.items.
  induction d as [|[k' v'] d IH]; intros Hin; [destruct Hin|].
  destruct Hin as [[= -> ->]|Hin]; [reflexivity|].
  cbn [frozenset]. destruct v'; [reflexivity|]. now rewrite IH.
Qed.

End EqualityAndHash.

(** The documents that the iteration yields are finalized dictionaries. *)
Lemma yielded_documents_finalized (self : WhoisTextParser) (file : list string) :
  Forall (fun d => Dict.wf d /\ finalized d) (fst (parse_lines self file)).
Proof.
  rewrite parse_lines_stream. apply stream_yields; [|apply building_start].
  intros document last Hb _. split.
  - apply wf_join_values, (building_wf _ _ Hb).
  - apply join_values_finalized, (building_wf _ _ Hb).
Qed.

(** C8. Two finalized documents are equal exactly when their (attribute,
    value) pairs make the same set; the hash of a finalized document is the
    hash of that set, so equal documents have the same hash; hence two
    documents with the same pairs inserted in different orders are equal and
    have the same hash. *)
Theorem equality_and_hash_over_pair_set (hash : gset (string * value) -> Z)
    (d1 d2 : WhoisDocument) :
  Dict.wf d1 -> Dict.wf d2 -> finalized d1 -> finalized d2 ->
  (__eq__ d1 d2 = true <-> pair_set d1 = pair_set d2)
  /\ __hash__ hash d1 = Some (hash (pair_set d1))
  /\ __hash__ hash d2 = Some (hash (pair_set d2))
  /\ (__eq__ d1 d2 = true -> __hash__ hash d1 = __hash__ hash d2)
  /\ (Permutation d1 d2 ->
      __eq__ d1 d2 = true /\ __hash__ hash d1 = __hash__ hash d2).
Proof.
  intros Hwf1 Hwf2 Hf1 Hf2.
  assert (Hh : forall d, finalized d -> __hash__ hash d = Some (hash (pair_set d))).
  { intros d Hf. unfold __hash__. now rewrite frozenset_finalized. }
  repeat split.
  - now apply eq_iff_pair_set.
  - now apply eq_iff_pair_set.
  - now apply Hh.
  - now apply Hh.
  - intros Heq. rewrite !Hh by assumption. do 2 f_equal.
    now apply eq_iff_pair_set.
  - apply eq_iff_pair_set; auto. apply pair_set_eq_iff.
    intros item. split; apply Permutation_in; [|symmetry]; assumption.
  - rewrite !Hh by assumption. do 2 f_equal. apply pair_set_eq_iff.
    intros item. split; apply Permutation_in; [|symmetry]; assumption.
Qed.

Lemma equality_and_hash_witness :
  Dict.wf [("inetnum", Joined "10.0.0.0/8"); ("source", Joined "RIPE")]
  /\ Dict.wf [("source", Joined "RIPE"); ("inetnum", Joined "10.0.0.0/8")]
  /\ finalized [("inetnum", Joined "10.0.0.0/8"); ("source", Joined "RIPE")]
  /\ finalized [("source", Joined "RIPE"); ("inetnum", Joined "10.0.0.0/8")]
  /\ __eq__ [("inetnum", Joined "10.0.0.0/8"); ("source", Joined "RIPE")]
            [("source", Joined "RIPE"); ("inetnum", Joined "10.0.0.0/8")] = true
  /\ __hash__ (fun set => Z.of_nat (size set))
       [("inetnum", Joined "10.0.0.0/8"); ("source", Joined "RIPE")]
     = __hash__ (fun set => Z.of_nat (size set))
         [("source", Joined "RIPE"); ("inetnum", Joined "10.0.0.0/8")].
Proof.
  assert (Hwf1 : Dict.wf [("inetnum", Joined "10.0.0.0/8"); ("source", Joined "RIPE")]).
  { repeat constructor; vm_compute; intros H; decompose [or] H; congruence. }
  assert (Hwf2 : Dict.wf [("source", Joined "RIPE"); ("inetnum", Joined "10.0.0.0/8")]).
  { repeat constructor; vm_compute; intros H; decompose [or] H; congruence. }
  assert (Hf1 : finalized [("inetnum", Joined "10.0.0.0/8"); ("source", Joined "RIPE")]).
  { intros k v H. vm_compute in H. decompose [or] H; try contradiction;
      match goal with E : (_, _) = (_, _) |- _ => inversion E end; eauto. }
  assert (Hf2 : finalized [("source", Joined "RIPE"); ("inetnum", Joined "10.0.0.0/8")]).
  { intros k v H. vm_compute in H. decompose [or] H; try contradiction;
      match goal with E : (_, _) = (_, _) |- _ => inversion E end; eauto. }
  destruct (equality_and_hash_over_pair_set (fun set => Z.of_nat (size set))
              _ _ Hwf1 Hwf2 Hf1 Hf2) as (_ & _ & _ & _ & Hperm).
  destruct (Hperm (perm_swap _ _ _)) as [Heq Hhash].
  repeat (split; [assumption|]). exact Hhash.
Defined.

(** ** Where the code leaves its own description *)

(** C1. The code does not split at the first divider only: [_parse_line]
    splits the line at every divider and unpacks the segments into a name
    and a value, so the line [changed: 10:30], whose value holds the divider,
    gives three segments, [ValueError] is raised, and the iteration is
    aborted without a document. *)
Theorem divider_in_value_raises :
  PyStr.split (nl "changed: 10:30") ":" = Some ["changed"; " 10"; nl "30"]
  /\ _parse_line (WhoisTextParser_default []) (nl "changed: 10:30") = Raise ValueError
  /\ parse_file [nl "changed: 10:30"] = ([], Aborted ValueError).
Proof. repeat split; reflexivity. Qed.

(** C2. A comment line between an attribute line and a continuation line
    changes the document: it resets the last attribute, and the
    continuation line that follows is dropped. *)
Theorem comment_before_continuation :
  parse_file [nl "a: 1"; nl " b"]
  = ([[("a", Joined (PyStr.join PyStr.LF ["1"; "b"]))]], Exhausted)
  /\ parse_file [nl "a: 1"; nl "# c"; nl " b"]
     = ([[("a", Joined "1")]], Exhausted)
  /\ parse_file [nl "a: 1"; nl "# c"; nl " b"] <> parse_file [nl "a: 1"; nl " b"].
Proof. repeat split; try reflexivity. discriminate. Qed.

(** C3. Of two consecutive continuation lines the second is dropped: the
    first one resets the last attribute, so [part3] is not in the value. *)
Theorem second_continuation_dropped :
  parse_file [nl "name: part1"; nl " part2"]
  = ([[("name", Joined (PyStr.join PyStr.LF ["part1"; "part2"]))]], Exhausted)
  /\ parse_file [nl "name: part1"; nl " part2"; nl " part3"]
     = ([[("name", Joined (PyStr.join PyStr.LF ["part1"; "part2"]))]], Exhausted)
  /\ parse_file [nl "name: part1"; nl " part2"; nl " part3"]
     <> ([[("name", Joined (PyStr.join PyStr.LF ["part1"; "part2"; "part3"]))]],
         Exhausted).
Proof. repeat split; try reflexivity. discriminate. Qed.

(** ** What the loop does by design with comments and continuations *)

Section Continuations.

Variable self : WhoisTextParser.

(** A last attribute that is [None] and one that is the empty string are
    the same to the loop. *)
Lemma stream_falsy_last (file : list string) :
  forall document last,
    truthy last = false ->
    stream self document last file = stream self document None file.
Proof.
  induction file as [|line file IH]; intros document last Ht; [reflexivity|].
  cbn [stream].
  destruct (_is_document_divider_found self line).
  - destruct (Dict.is_empty document); auto.
  - destruct (_parse_line self line) as [[[k|] value]|e]; [| |reflexivity].
    + cbn [andb]. now destruct value.
    + rewrite Ht. cbn. auto.
Qed.

(** A comment line leaves the document as it is and resets the last
    attribute. *)
Lemma stream_comment (line : string) (file : list string)
    (document : WhoisDocument) (last : option string) :
  classify self line = Comment ->
  stream self document last (line :: file) = stream self document None file.
Proof.
  intros Hc. cbn [stream].
  rewrite classify_not_boundary by congruence.
  rewrite (parse_comment _ _ Hc). cbn [andb record_line].
  destruct (truthy last) eqn:Ht; cbn [negb]; [reflexivity|].
  now apply stream_falsy_last.
Qed.

(** A continuation line right after an attribute line: its trimmed text,
    when not empty, is one more fragment of that attribute. *)
Lemma stream_continuation (line : string) (file : list string)
    (document : WhoisDocument) (k : string) (parts : list string) :
  classify self line = Continuation ->
  PyStr.truthy (PyStr.strip line) = true ->
  PyStr.truthy k = true ->
  Dict.get k document = Some (Fragments parts) ->
  stream self document (Some k) (line :: file)
  = stream self (Dict.set k (Fragments (parts ++ [PyStr.strip line])) document)
      None file.
Proof.
  intros Hc Hv Hk Hg. cbn [stream].
  rewrite classify_not_boundary by congruence.
  rewrite (parse_continuation _ _ Hc). cbn [andb truthy record_line].
  now rewrite Hk, Hv; cbn [negb append_fragment]; rewrite Hg.
Qed.

Lemma stream_last_irrelevant (file : list string)
    (document : WhoisDocument) (last : option string) :
  building document last ->
  no_continuation_ahead self file ->
  stream self document None file = stream self document last file.
Proof.
  intros Hb Hfile.
  destruct (truthy last) eqn:Ht; [|symmetry; now apply stream_falsy_last].
  destruct file as [|line file]; [reflexivity|]. cbn in Hfile.
  destruct (classify self line) eqn:Ec; try congruence.
  - apply classify_boundary in Ec. cbn [stream]. rewrite Ec.
    destruct (Dict.is_empty document) eqn:He; [|reflexivity].
    rewrite (building_empty _ _ Hb He) in Ht. discriminate.
  - now rewrite !stream_comment.
  - cbn [stream]. rewrite classify_not_boundary by congruence.
    rewrite (parse_key_value _ _ Ec).
    destruct (PyStr.split line (_attribute_divider self)) as [[|a [|v [|x l]]]|];
      reflexivity.
Qed.

(** The line after a comment line is no continuation of anything: a
    continuation line there is dropped. *)
Lemma continuation_after_comment_dropped (comment line : string) (file : list string)
    (document : WhoisDocument) (last : option string) :
  classify self comment = Comment ->
  classify self line = Continuation ->
  stream self document last (comment :: line :: file)
  = stream self document last (comment :: file).
Proof.
  intros Hc Hl.
  rewrite (stream_comment comment (line :: file)) by assumption.
  rewrite (stream_comment comment file) by assumption.
  now apply stream_orphan.
Qed.

(** Of two continuation lines in a row, the second is dropped. *)
Lemma second_continuation_always_dropped (first second : string) (file : list string)
    (document : WhoisDocument) (last : option string) :
  classify self first = Continuation ->
  classify self second = Continuation ->
  stream self document last (first :: second :: file)
  = stream self document last (first :: file).
Proof.
  intros H1 H2. cbn [stream].
  rewrite (classify_not_boundary _ first) by congruence.
  rewrite (classify_not_boundary _ second) by congruence.
  rewrite (parse_continuation _ _ H1), (parse_continuation _ _ H2).
  cbn [andb].
  destruct (truthy last) eqn:Ht; cbn [negb]; [|reflexivity].
  destruct (record_line document last None (Some (PyStr.strip first)));
    reflexivity.
Qed.

(** A comment line, or a blank line that is no divider, put anywhere but
    right before a continuation line, changes nothing of what the
    iteration yields. *)
Lemma comment_insertion (line : string) (pre post : list string) :
  classify self line = Comment ->
  no_continuation_ahead self post ->
  parse_lines self (pre ++ line :: post) = parse_lines self (pre ++ post).
Proof.
  intros Hc Hpost. rewrite !parse_lines_stream.
  apply stream_congruence; [|apply building_start].
  intros document last Hb. rewrite stream_comment by assumption.
  now apply stream_last_irrelevant.
Qed.

End Continuations.

Example continuation_joined :
  parse_file [nl "a: 1"; nl " b2"; nl ""; nl "a: 3"; nl ""]
  = ([[("a", Joined (PyStr.join PyStr.LF ["1"; "b2"]))]; [("a", Joined "3")]],
     Exhausted).
Proof. reflexivity. Qed.

Example repeated_attribute :
  parse_file [nl "a: 1"; nl "b: 2"; nl "a: 3"]
  = ([[("a", Joined (PyStr.join PyStr.LF ["1"; "3"])); ("b", Joined "2")]],
     Exhausted).
Proof. reflexivity. Qed.

Example counter_after_first_document :
  __next__ (WhoisTextParser_default [nl ""; nl "a: 1"; nl ""; nl "b: 2"])
  = (Return [("a", Joined "1")],
     advance (WhoisTextParser_default []) [nl "b: 2"] 3).
Proof. reflexivity. Qed.

(** * More of the code *)

(** ** One call of [__next__] *)

Section NextCall.

Variable self : WhoisTextParser.

(** The loop reads a prefix of the lines and counts the lines it reads. *)
Lemma for_line_in_file_reads (file : list string) :
  forall document last counter r parser',
    for_line_in_file self document last file counter = (r, parser') ->
    exists consumed,
      file = consumed ++ _file parser'
      /\ parser' = advance self (_file parser') (counter + length consumed).
Proof.
  induction file as [|line file IH]; intros document last counter r parser' H;
    cbn [for_line_in_file] in H.
  - exists []. destruct (Dict.is_empty document); inversion H; subst;
      cbn [_file advance app length]; now rewrite Nat.add_0_r.
  - assert (Hhere : forall r0, (r0, advance self file (S counter)) = (r, parser') ->
                exists consumed,
                  line :: file = consumed ++ _file parser'
                  /\ parser' = advance self (_file parser') (counter + length consumed)).
    { intros r0 [= _ <-]. exists [line]. cbn [_file advance app length].
      split; [reflexivity|]. f_equal. lia. }
    assert (Hnext : forall d l,
               for_line_in_file self d l file (S counter) = (r, parser') ->
               exists consumed,
                 line :: file = consumed ++ _file parser'
                 /\ parser' = advance self (_file parser') (counter + length consumed)).
    { intros d l Hd. destruct (IH _ _ _ _ _ Hd) as (consumed & Hf & Hp).
      exists (line :: consumed). cbn [app length]. split; [now rewrite <- Hf|].
      rewrite Hp at 1. f_equal. lia. }
    destruct (_is_document_divider_found self line).
    + destruct (Dict.is_empty document); eauto.
    + destruct (_parse_line self line) as [[attribute value]|e]; [|eauto].
      destruct (_ && _); [eauto|].
      destruct (record_line document last attribute value); eauto.
Qed.

(** The loop raises [StopIteration] only at the end of the lines. *)
Lemma for_line_in_file_stop (file : list string) :
  forall document last counter parser',
    for_line_in_file self document last file counter = (StopIteration, parser') ->
    parser' = advance self [] (counter + length file).
Proof.
  induction file as [|line file IH]; intros document last counter parser' H;
    cbn [for_line_in_file] in H.
  - destruct (Dict.is_empty document); inversion H.
    cbn [length]. now rewrite Nat.add_0_r.
  - assert (Hnext : forall d l,
               for_line_in_file self d l file (S counter) = (StopIteration, parser') ->
               parser' = advance self [] (counter + length (line :: file))).
    { intros d l Hd. rewrite (IH _ _ _ _ Hd). cbn [length]. f_equal. lia. }
    destruct (_is_document_divider_found self line).
    + destruct (Dict.is_empty document); [eauto|discriminate].
    + destruct (_parse_line self line) as [[attribute value]|e]; [|discriminate].
      destruct (_ && _); [eauto|].
      destruct (record_line document last attribute value); [eauto|discriminate].
Qed.

(** A line that is no divider and on which [_parse_line] raises is a
    key/value line that does not split in two. *)
Lemma parse_raise_inv (line : string) (e : exn) :
  _is_document_divider_found self line = false ->
  _parse_line self line = Raise e ->
  e = ValueError
  /\ classify self line = KeyValue
  /\ segments line (_attribute_divider self) <> 2.
Proof.
  intros Hd Hp. split; [now apply (parse_line_raises self line)|].
  destruct (classify self line) eqn:Ec.
  - apply classify_boundary in Ec. congruence.
  - rewrite (parse_comment _ _ Ec) in Hp. discriminate.
  - rewrite (parse_continuation _ _ Ec) in Hp. discriminate.
  - split; [reflexivity|]. intros Hs.
    destruct (parse_well_formed self line Ec Hs) as (k & v & _ & Hok). congruence.
Qed.

(** What the loop comes to, from a state of the loop. *)
Lemma for_line_in_file_outcome (file : list string) :
  forall document last counter r parser',
    building document last ->
    for_line_in_file self document last file counter = (r, parser') ->
    match r with
    | Return d =>
        exists document' last',
          building document' last'
          /\ Dict.is_empty document' = false
          /\ d = join_values document' PyStr.LF
    | StopIteration => True
    | Raised e =>
        e = ValueError
        /\ exists consumed line,
            file = consumed ++ line :: _file parser'
            /\ classify self line = KeyValue
            /\ segments line (_attribute_divider self) <> 2
    end.
Proof.
  induction file as [|line file IH]; intros document last counter r parser' Hb H;
    cbn [for_line_in_file] in H.
  - destruct (Dict.is_empty document) eqn:He; inversion H; subst;
      [exact I|exists document, last; auto].
  - assert (Hnext : forall d l,
               building d l ->
               for_line_in_file self d l file (S counter) = (r, parser') ->
               match r with
               | Return d0 =>
                   exists document' last',
                     building document' last'
                     /\ Dict.is_empty document' = false
                     /\ d0 = join_values document' PyStr.LF
               | StopIteration => True
               | Raised e =>
                   e = ValueError
                   /\ exists consumed line0,
                       line :: file = consumed ++ line0 :: _file parser'
                       /\ classify self line0 = KeyValue
                       /\ segments line0 (_attribute_divider self) <> 2
               end).
    { intros d l Hdl Hd. specialize (IH _ _ _ _ _ Hdl Hd).
      destruct r as [d0| |e]; auto.
      destruct IH as (-> & consumed & line0 & -> & Hc & Hs).
      split; [reflexivity|]. exists (line :: consumed), line0. auto. }
    destruct (_is_document_divider_found self line) eqn:Ed.
    + destruct (Dict.is_empty document) eqn:He; [exact (Hnext _ _ Hb H)|].
      inversion H; subst. cbv beta iota. exists document, last. auto.
    + destruct (_parse_line self line) as [[attribute value]|e] eqn:Ep.
      * destruct (_ && _) eqn:Es; [exact (Hnext _ _ Hb H)|].
        destruct (record_line_building self line document last attribute value
                    Hb Ep Es) as (document' & Hr & Hb').
        rewrite Hr in H. exact (Hnext _ _ Hb' H).
      * inversion H; subst. cbv beta iota. cbn [_file advance].
        destruct (parse_raise_inv _ _ Ed Ep) as (-> & Hc & Hs).
        split; [reflexivity|]. exists [], line. auto.
Qed.

End NextCall.

(** A call that does not raise [StopIteration] has read a line. *)
Lemma next_shorter (parser parser' : WhoisTextParser) (r : next_result) :
  __next__ parser = (r, parser') ->
  r <> StopIteration ->
  length (_file parser') < length (_file parser).
Proof.
  unfold __next__. intros H Hr.
  destruct (_file parser) as [|line file];
    cbn [for_line_in_file Dict.is_empty] in H.
  - inversion H. congruence.
  - assert (Hnext : forall d l,
               for_line_in_file parser d l file (S (_lines_processed_counter parser))
               = (r, parser') ->
               length (_file parser') < length (line :: file)).
    { intros d l Hd.
      destruct (for_line_in_file_reads _ _ _ _ _ _ _ Hd) as (consumed & Hf & _).
      apply (f_equal (@length string)) in Hf. rewrite List.length_app in Hf.
      cbn [length]. lia. }
    assert (Hhere : forall r0,
               (r0, advance parser file (S (_lines_processed_counter parser)))
               = (r, parser') ->
               length (_file parser') < length (line :: file)).
    { intros r0 [= _ <-]. cbn. lia. }
    destruct (_is_document_divider_found parser line); [eauto|].
    destruct (_parse_line parser line) as [[attribute value]|e]; [|eauto].
    destruct (_ && _); [eauto|].
    destruct (record_line [] (Some "") attribute value); eauto.
Qed.

(** X1. A call of [__next__] reads a prefix of the unread lines and leaves
    the rest for the next call; [lines_processed] grows by the number of
    lines read; the dividers and the comment marker stay as they were; and a
    call that returns a document has read a line. *)
Theorem next_reads_a_prefix (parser parser' : WhoisTextParser) (r : next_result) :
  __next__ parser = (r, parser') ->
  exists consumed,
    _file parser = consumed ++ _file parser'
    /\ lines_processed parser' = lines_processed parser + length consumed
    /\ _attribute_divider parser' = _attribute_divider parser
    /\ _document_divider_pattern parser' = _document_divider_pattern parser
    /\ _commentary_symbol parser' = _commentary_symbol parser
    /\ (forall d, r = Return d -> consumed <> []).
Proof.
  intros H. pose proof (next_shorter _ _ _ H) as Hshort.
  unfold __next__ in H. unfold lines_processed.
  destruct (for_line_in_file_reads _ _ _ _ _ _ _ H) as (consumed & Hf & Hp).
  exists consumed. split; [exact Hf|].
  rewrite Hp at 1 2 3 4.
  cbn [advance _lines_processed_counter _attribute_divider
         _document_divider_pattern _commentary_symbol].
  repeat (split; [reflexivity|]).
  intros d Hr ->. assert (Hne : r <> StopIteration) by (rewrite Hr; discriminate).
  specialize (Hshort Hne). rewrite Hf in Hshort.
  cbn [app] in Hshort. lia.
Qed.

Lemma next_reads_a_prefix_witness :
  __next__ (WhoisTextParser_default [nl ""; nl "a: 1"; nl ""; nl "b: 2"])
  = (Return [("a", Joined "1")], advance (WhoisTextParser_default []) [nl "b: 2"] 3)
  /\ exists consumed,
      [nl ""; nl "a: 1"; nl ""; nl "b: 2"] = consumed ++ [nl "b: 2"]
      /\ 3 = 0 + length consumed.
Proof.
  assert (H : __next__ (WhoisTextParser_default [nl ""; nl "a: 1"; nl ""; nl "b: 2"])
              = (Return [("a", Joined "1")],
                 advance (WhoisTextParser_default []) [nl "b: 2"] 3))
    by reflexivity.
  split; [exact H|].
  destruct (next_reads_a_prefix _ _ _ H) as (consumed & Hf & Hc & _).
  exists consumed. split; [exact Hf|exact Hc].
Defined.

(** X2. [StopIteration] is final: the call that raises it has read all the
    lines, and every later call raises it again and changes nothing. *)
Theorem stop_iteration_is_final (parser parser' : WhoisTextParser) :
  __next__ parser = (StopIteration, parser') ->
  _file parser' = []
  /\ lines_processed parser' = lines_processed parser + length (_file parser)
  /\ __next__ parser' = (StopIteration, parser').
Proof.
  unfold __next__, lines_processed. intros H.
  apply for_line_in_file_stop in H. rewrite H.
  cbn [advance _file _lines_processed_counter for_line_in_file Dict.is_empty].
  repeat split; reflexivity.
Qed.

Lemma stop_iteration_is_final_witness :
  __next__ (WhoisTextParser_default [nl "# no record"; nl ""])
  = (StopIteration, advance (WhoisTextParser_default []) [] 2)
  /\ __next__ (advance (WhoisTextParser_default []) [] 2)
     = (StopIteration, advance (WhoisTextParser_default []) [] 2).
Proof.
  assert (H : __next__ (WhoisTextParser_default [nl "# no record"; nl ""])
              = (StopIteration, advance (WhoisTextParser_default []) [] 2))
    by reflexivity.
  split; [exact H|].
  exact (proj2 (proj2 (stop_iteration_is_final _ _ H))).
Defined.

(** X3. A document that [__next__] returns is finalized: it holds an
    attribute, no key twice, every value is a single string, and so its
    hash is defined: it is the hash of the set of its pairs. *)
Theorem returned_document_finalized (hash : gset (string * value) -> Z)
    (parser parser' : WhoisTextParser) (d : WhoisDocument) :
  __next__ parser = (Return d, parser') ->
  Dict.is_empty d = false
  /\ Dict.wf d
  /\ finalized d
  /\ __hash__ hash d = Some (hash (pair_set d)).
Proof.
  unfold __next__. intros H.
  destruct (for_line_in_file_outcome _ _ _ _ _ _ _ building_start H)
    as (document' & last' & Hb & He & ->).
  pose proof (building_wf _ _ Hb) as Hwf.
  assert (Hf : finalized (join_values document' PyStr.LF))
    by now apply join_values_finalized.
  repeat split.
  - now apply join_values_not_empty.
  - now apply wf_join_values.
  - exact Hf.
  - unfold __hash__. now rewrite frozenset_finalized.
Qed.

Lemma returned_document_finalized_witness :
  __next__ (WhoisTextParser_default [nl "a: 1"; nl " b"; nl "a: 2"])
  = (Return [("a", Joined (PyStr.join PyStr.LF ["1"; "b"; "2"]))],
     advance (WhoisTextParser_default []) [] 3)
  /\ finalized [("a", Joined (PyStr.join PyStr.LF ["1"; "b"; "2"]))].
Proof.
  assert (H : __next__ (WhoisTextParser_default [nl "a: 1"; nl " b"; nl "a: 2"])
              = (Return [("a", Joined (PyStr.join PyStr.LF ["1"; "b"; "2"]))],
                 advance (WhoisTextParser_default []) [] 3))
    by reflexivity.
  split; [exact H|].
  exact (proj1 (proj2 (proj2 (returned_document_finalized
                                (fun set => Z.of_nat (size set)) _ _ _ H)))).
Defined.

(** X4. The lookups of the loop never fail: whatever the lines, a call of
    [__next__] raises no [KeyError], the last attribute being a key of the
    document whenever a continuation line is appended to it, and no
    [AttributeError], the value appended to being a list. *)
Theorem next_lookups_never_fail (parser parser' : WhoisTextParser) (e : exn) :
  __next__ parser = (Raised e, parser') ->
  e <> KeyError /\ e <> AttributeError.
Proof.
  unfold __next__. intros H.
  destruct (for_line_in_file_outcome _ _ _ _ _ _ _ building_start H) as [-> _].
  split; discriminate.
Qed.

Lemma next_lookups_never_fail_witness :
  __next__ (WhoisTextParser_default [nl "a: 1"; nl " x"; nl "b: 2: 3"; nl "c: 4"])
  = (Raised ValueError, advance (WhoisTextParser_default []) [nl "c: 4"] 3)
  /\ ValueError <> KeyError /\ ValueError <> AttributeError.
Proof.
  assert (H : __next__ (WhoisTextParser_default
                          [nl "a: 1"; nl " x"; nl "b: 2: 3"; nl "c: 4"])
              = (Raised ValueError,
                 advance (WhoisTextParser_default []) [nl "c: 4"] 3))
    by reflexivity.
  split; [exact H|].
  exact (next_lookups_never_fail _ _ _ H).
Defined.

(** ** The parser after the iteration *)

Lemma drain_next (p : WhoisTextParser) :
  drain p
  = match __next__ p with
    | (Return _, p') => drain p'
    | (StopIteration, p') => p'
    | (Raised _, p') => p'
    end.
Proof.
  rewrite drain_equation_1. unfold inspect.
  assert (H : forall x (E : __next__ p = x),
             drain_unfold_clause_1 p (exist _ x E)
             = match x with
               | (Return _, p') => drain p'
               | (StopIteration, p') => p'
               | (Raised _, p') => p'
               end).
  { intros [[d| |e] p'] E; reflexivity. }
  apply H.
Qed.

(** Lines read and lines unread add up to the same number all along. *)
Lemma next_counts (p p' : WhoisTextParser) (r : next_result) :
  __next__ p = (r, p') ->
  _lines_processed_counter p' + length (_file p')
  = _lines_processed_counter p + length (_file p).
Proof.
  unfold __next__. intros H.
  destruct (for_line_in_file_reads _ _ _ _ _ _ _ H) as (consumed & Hf & Hp).
  assert (Hc : _lines_processed_counter p'
               = _lines_processed_counter p + length consumed)
    by (rewrite Hp; reflexivity).
  apply (f_equal (@length string)) in Hf. rewrite List.length_app in Hf. lia.
Qed.

(** The configuration after a call is the configuration before it. *)
Lemma next_configuration (p p' : WhoisTextParser) (r : next_result) :
  __next__ p = (r, p') ->
  forall line,
    classify p' line = classify p line
    /\ segments line (_attribute_divider p') = segments line (_attribute_divider p).
Proof.
  unfold __next__. intros H line.
  destruct (for_line_in_file_reads _ _ _ _ _ _ _ H) as (consumed & _ & Hp).
  rewrite Hp. split; reflexivity.
Qed.

Lemma drain_counts (n : nat) :
  forall p,
    length (_file p) = n ->
    _lines_processed_counter (drain p) + length (_file (drain p))
    = _lines_processed_counter p + length (_file p)
    /\ (snd (iterate p) = Exhausted -> _file (drain p) = []).
Proof.
  induction n as [n IH] using lt_wf_ind. intros p Hn.
  rewrite drain_next, iterate_next.
  destruct (__next__ p) as [[d| |e] p'] eqn:E.
  - assert (Hlt : length (_file p') < n).
    { rewrite <- Hn. apply (next_shorter _ _ _ E). discriminate. }
    destruct (IH _ Hlt p' eq_refl) as (Hsum & Hex).
    cbn [yield snd]. split.
    + rewrite Hsum. now apply next_counts in E.
    + exact Hex.
  - split; [now apply next_counts in E|].
    intros _. unfold __next__ in E. apply for_line_in_file_stop in E.
    now rewrite E.
  - split; [now apply next_counts in E|].
    intros H0. discriminate H0.
Qed.

(** X5. Lines read and lines left unread always add up to the lines of the
    file, whichever way the loop of [parse_file] ends; and when it ends on
    [StopIteration], no line is left and [lines_processed] has grown by the
    number of lines of the file. *)
Theorem lines_processed_after_iteration (parser : WhoisTextParser) :
  lines_processed (drain parser) + length (_file (drain parser))
  = lines_processed parser + length (_file parser)
  /\ (snd (iterate parser) = Exhausted ->
      _file (drain parser) = []
      /\ lines_processed (drain parser)
         = lines_processed parser + length (_file parser)).
Proof.
  unfold lines_processed.
  destruct (drain_counts _ parser eq_refl) as (Hsum & Hex).
  split; [exact Hsum|].
  intros He. specialize (Hex He). split; [exact Hex|].
  rewrite Hex in Hsum. cbn [length] in Hsum. lia.
Qed.

Lemma lines_processed_after_iteration_witness :
  snd (iterate (WhoisTextParser_default [nl "a: 1"; nl ""; nl "# end"])) = Exhausted
  /\ lines_processed (drain (WhoisTextParser_default [nl "a: 1"; nl ""; nl "# end"]))
     = 0 + 3.
Proof.
  assert (H : snd (iterate (WhoisTextParser_default [nl "a: 1"; nl ""; nl "# end"]))
              = Exhausted) by reflexivity.
  split; [exact H|].
  destruct (lines_processed_after_iteration
              (WhoisTextParser_default [nl "a: 1"; nl ""; nl "# end"]))
    as (_ & Hex).
  exact (proj2 (Hex H)).
Defined.

(** ** Records one after the other *)

Section Composition.

Variable self : WhoisTextParser.

(** With no attribute recorded, the loop is in the state in which
    [__next__] starts. *)
Lemma stream_empty_state (file : list string)
    (document : WhoisDocument) (last : option string) :
  building document last ->
  Dict.is_empty document = true ->
  stream self document last file = stream self [] (Some "") file.
Proof.
  intros Hb He. destruct document; [|discriminate].
  rewrite (stream_falsy_last self file [] last) by (eapply building_empty; eauto).
  symmetry. now apply stream_falsy_last.
Qed.

Lemma stream_split_at_divider (post : list string) (pre : list string) :
  forall document last,
    building document last ->
    snd (stream self document last pre) = Exhausted ->
    stream self document last (pre ++ _document_divider_pattern self :: post)
    = (fst (stream self document last pre) ++ fst (stream self [] (Some "") post),
       snd (stream self [] (Some "") post)).
Proof.
  induction pre as [|line pre IH]; intros document last Hb Hend.
  - cbn [app]. rewrite stream_divider. cbn [stream].
    destruct (Dict.is_empty document) eqn:He.
    + rewrite (stream_empty_state post _ _ Hb He). now destruct (stream self [] (Some "") post).
    + reflexivity.
  - cbn [app stream] in *.
    destruct (_is_document_divider_found self line).
    + destruct (Dict.is_empty document); [now apply IH|].
      cbn [yield fst snd] in *. rewrite (IH _ _ building_start Hend). reflexivity.
    + destruct (_parse_line self line) as [[attribute value]|e] eqn:Ep; [|discriminate].
      destruct (_ && _) eqn:Es; [now apply IH|].
      destruct (record_line_building self line document last attribute value
                  Hb Ep Es) as (document' & Hr & Hb').
      rewrite Hr in *. now apply IH.
Qed.

Lemma stream_aborted_prefix (e : exn) (post : list string) (pre : list string) :
  forall document last,
    snd (stream self document last pre) = Aborted e ->
    stream self document last (pre ++ post) = stream self document last pre.
Proof.
  induction pre as [|line pre IH]; intros document last Hend.
  - cbn [stream] in Hend. destruct (Dict.is_empty document); discriminate.
  - cbn [app stream] in *.
    destruct (_is_document_divider_found self line).
    + destruct (Dict.is_empty document); [now apply IH|].
      cbn [yield fst snd] in *. now rewrite (IH _ _ Hend).
    + destruct (_parse_line self line) as [[attribute value]|e0]; [|reflexivity].
      destruct (_ && _); [now apply IH|].
      destruct (record_line document last attribute value); [now apply IH|reflexivity].
Qed.

End Composition.

(** X6. A divider line separates two parses: when the lines before it parse
    without error, the documents of the whole are the documents of the lines
    before it followed by the documents of the lines after it, and the whole
    ends as the lines after it do. *)
Theorem divider_separates_parses (self : WhoisTextParser) (pre post : list string) :
  snd (parse_lines self pre) = Exhausted ->
  parse_lines self (pre ++ _document_divider_pattern self :: post)
  = (fst (parse_lines self pre) ++ fst (parse_lines self post),
     snd (parse_lines self post)).
Proof.
  rewrite !parse_lines_stream. intros H.
  now apply stream_split_at_divider; [apply building_start|].
Qed.

Lemma divider_separates_parses_witness :
  snd (parse_lines (WhoisTextParser_default []) [nl "a: 1"; nl " x"]) = Exhausted
  /\ parse_lines (WhoisTextParser_default [])
       ([nl "a: 1"; nl " x"] ++ nl "" :: [nl "b: 2"; nl "c"])
     = (fst (parse_lines (WhoisTextParser_default []) [nl "a: 1"; nl " x"])
          ++ fst (parse_lines (WhoisTextParser_default []) [nl "b: 2"; nl "c"]),
        snd (parse_lines (WhoisTextParser_default []) [nl "b: 2"; nl "c"])).
Proof.
  assert (H : snd (parse_lines (WhoisTextParser_default []) [nl "a: 1"; nl " x"])
              = Exhausted) by reflexivity.
  split; [exact H|].
  exact (divider_separates_parses (WhoisTextParser_default []) _ [nl "b: 2"; nl "c"] H).
Defined.

(** X7. An error ends the parse: when the iteration over some lines is
    aborted, whatever lines follow them are never read, and the documents
    yielded are those yielded before the error. *)
Theorem aborted_parse_ignores_rest (self : WhoisTextParser) (pre post : list string)
    (e : exn) :
  snd (parse_lines self pre) = Aborted e ->
  parse_lines self (pre ++ post) = parse_lines self pre.
Proof.
  rewrite !parse_lines_stream. apply stream_aborted_prefix.
Qed.

Lemma aborted_parse_ignores_rest_witness :
  snd (parse_lines (WhoisTextParser_default []) [nl "a: 1"; nl ""; nl "b"])
  = Aborted ValueError
  /\ parse_lines (WhoisTextParser_default [])
       ([nl "a: 1"; nl ""; nl "b"] ++ [nl ""; nl "c: 3"])
     = parse_lines (WhoisTextParser_default []) [nl "a: 1"; nl ""; nl "b"].
Proof.
  assert (H : snd (parse_lines (WhoisTextParser_default []) [nl "a: 1"; nl ""; nl "b"])
              = Aborted ValueError) by reflexivity.
  split; [exact H|].
  exact (aborted_parse_ignores_rest _ _ [nl ""; nl "c: 3"] _ H).
Defined.

(** ** Records of attribute lines *)

Section AttributeLines.

Variable self : WhoisTextParser.

Lemma fragments_of_snoc (k k0 v : string) (seen : list (string * string)) :
  fragments_of k (seen ++ [(k0, v)])
  = fragments_of k seen ++ (if String.eqb k0 k then [v] else []).
Proof.
  unfold fragments_of. rewrite List.filter_app, map_app. cbn [List.filter fst].
  now destruct (String.eqb k0 k).
Qed.

Lemma gathered_record (document : WhoisDocument) (seen : list (string * string))
    (last : option string) (k v : string) :
  gathered document seen ->
  exists document',
    record_line document last (Some k) (Some v) = Ok document'
    /\ gathered document' (seen ++ [(k, v)]).
Proof.
  intros Hg. cbn [record_line]. unfold Dict.contains. pose proof (Hg k) as Hk.
  destruct (fragments_of k seen) as [|p parts] eqn:Ef; rewrite Hk; cbn [negb].
  - eexists. split; [reflexivity|]. intros k'. rewrite fragments_of_snoc.
    destruct (String.eqb k k') eqn:E.
    + apply String.eqb_eq in E. subst k'. now rewrite get_set_eq, Ef.
    + apply String.eqb_neq in E. rewrite get_set_ne by assumption.
      now rewrite Hg, app_nil_r.
  - cbn [append_fragment]. rewrite Hk.
    eexists. split; [reflexivity|]. intros k'. rewrite fragments_of_snoc.
    destruct (String.eqb k k') eqn:E.
    + apply String.eqb_eq in E. subst k'. now rewrite get_set_eq, Ef.
    + apply String.eqb_neq in E. rewrite get_set_ne by assumption.
      now rewrite Hg, app_nil_r.
Qed.

Lemma stream_attribute_lines (lines : list string) (kvs : list (string * string)) :
  Forall2 (fun line kv =>
             classify self line = KeyValue
             /\ _parse_line self line = Ok (Some (fst kv), Some (snd kv)))
    lines kvs ->
  forall document last seen,
    gathered document seen ->
    exists document',
      stream self document last lines = stream self document' None []
      /\ gathered document' (seen ++ kvs).
Proof.
  induction 1 as [|line [k v] lines kvs [Hc Hp] _ IH]; intros document last seen Hg.
  - exists document. now rewrite app_nil_r.
  - cbn [stream]. rewrite classify_not_boundary by congruence.
    cbn [fst snd] in Hp. rewrite Hp. cbn [andb].
    destruct (gathered_record document seen last k v Hg) as (document1 & -> & Hg1).
    destruct (IH document1 (Some k) _ Hg1) as (document' & -> & Hg').
    exists document'. split; [reflexivity|].
    now rewrite <- app_assoc in Hg'.
Qed.

End AttributeLines.

(** X8. A record made of attribute lines only: the lines, each one split into
    its name and its value, give one document, in which an attribute has the
    values of all the lines that name it, in the order of the lines, joined
    with line feeds, and in which no other attribute is. *)
Theorem attribute_lines_accumulate (self : WhoisTextParser) (lines : list string)
    (kvs : list (string * string)) :
  lines <> [] ->
  Forall2 (fun line kv =>
             classify self line = KeyValue
             /\ _parse_line self line = Ok (Some (fst kv), Some (snd kv)))
    lines kvs ->
  exists d,
    parse_lines self lines = ([d], Exhausted)
    /\ forall k, Dict.get k d = expected_value k kvs.
Proof.
  intros Hne Hlines. rewrite parse_lines_stream.
  destruct (stream_attribute_lines self lines kvs Hlines [] (Some "") [])
    as (document' & -> & Hg); [intros k; reflexivity|].
  cbn [app] in Hg. cbn [stream].
  assert (He : Dict.is_empty document' = false).
  { destruct Hlines as [|line [k v] lines kvs _ _]; [congruence|].
    specialize (Hg k). unfold fragments_of in Hg. cbn [List.filter fst] in Hg.
    rewrite String.eqb_refl in Hg. cbn [map] in Hg.
    destruct document'; [discriminate Hg|reflexivity]. }
  rewrite He. eexists. split; [reflexivity|].
  intros k. rewrite get_join_values, Hg. unfold expected_value.
  now destruct (fragments_of k kvs).
Qed.

Lemma attribute_lines_accumulate_witness :
  [nl "a: 1"; nl "b : 2"; nl "a:3"] <> []
  /\ exists d,
      parse_lines (WhoisTextParser_default []) [nl "a: 1"; nl "b : 2"; nl "a:3"]
      = ([d], Exhausted)
      /\ Dict.get "a" d = Some (Joined (PyStr.join PyStr.LF ["1"; "3"])).
Proof.
  assert (Hne : [nl "a: 1"; nl "b : 2"; nl "a:3"] <> []) by discriminate.
  split; [exact Hne|].
  destruct (attribute_lines_accumulate (WhoisTextParser_default [])
              [nl "a: 1"; nl "b : 2"; nl "a:3"]
              [("a", "1"); ("b", "2"); ("a", "3")] Hne) as (d & Hd & Hget).
  - repeat constructor.
  - exists d. split; [exact Hd|]. exact (Hget "a").
Defined.

(** ** Continuation lines and comment lines, as the loop has them *)

Lemma set_set (d : WhoisDocument) (k : string) (v v' : value) :
  Dict.set k v' (Dict.set k v d) = Dict.set k v' d.
Proof.
  induction d as [|[k0 v0] d IH]; cbn.
  - now rewrite String.eqb_refl.
  - destruct (String.eqb k k0) eqn:E; cbn; rewrite E; [reflexivity|].
    now rewrite IH.
Qed.

(** X9. A continuation line right after an attribute line extends the value
    of that attribute: the loop goes on with the value of the attribute line
    and the trimmed text of the continuation line as the last two fragments
    of the attribute, and with no last attribute any more. The name of the
    attribute must not be empty, nor the trimmed text. *)
Theorem continuation_extends_attribute (self : WhoisTextParser)
    (line continuation k v : string) (document : WhoisDocument)
    (last : option string) (file : list string) (counter : nat) :
  building document last ->
  classify self line = KeyValue ->
  _parse_line self line = Ok (Some k, Some v) ->
  PyStr.truthy k = true ->
  classify self continuation = Continuation ->
  PyStr.truthy (PyStr.strip continuation) = true ->
  for_line_in_file self document last (line :: continuation :: file) counter
  = for_line_in_file self
      (Dict.set k
         (Fragments (fragments_at k document ++ [v; PyStr.strip continuation]))
         document)
      None file (S (S counter)).
Proof.
  intros Hb Hc Hp Hk Hcc Hs. cbn [for_line_in_file].
  rewrite (classify_not_boundary self line) by congruence.
  rewrite (classify_not_boundary self continuation) by congruence.
  rewrite Hp, (parse_continuation _ _ Hcc). cbn [andb truthy record_line].
  rewrite Hk, Hs. cbn [negb andb]. unfold fragments_at.
  destruct (Dict.contains k document) eqn:E; cbn [negb].
  - destruct (building_get _ _ _ Hb E) as [parts Hg].
    cbn [append_fragment]. rewrite Hg, get_set_eq, set_set.
    now rewrite <- app_assoc.
  - unfold Dict.contains in E.
    destruct (Dict.get k document) eqn:Hg; [discriminate|].
    cbn [append_fragment]. now rewrite get_set_eq, set_set.
Qed.

Lemma continuation_extends_attribute_witness :
  building [] (Some "")
  /\ classify (WhoisTextParser_default []) (nl "descr: first") = KeyValue
  /\ classify (WhoisTextParser_default []) (nl "   second") = Continuation
  /\ for_line_in_file (WhoisTextParser_default []) [] (Some "")
       [nl "descr: first"; nl "   second"] 0
     = for_line_in_file (WhoisTextParser_default [])
         [("descr", Fragments ["first"; "second"])] None [] 2.
Proof.
  split; [exact building_start|]. split; [reflexivity|]. split; [reflexivity|].
  exact (continuation_extends_attribute (WhoisTextParser_default [])
           (nl "descr: first") (nl "   second") "descr" "first" [] (Some "") [] 0
           building_start eq_refl eq_refl eq_refl eq_refl eq_refl).
Defined.

(** X10. A comment line, or a blank line that is no divider, put anywhere
    but right before a continuation line changes nothing of what the
    iteration yields. *)
Theorem comment_line_ignored (self : WhoisTextParser) (line : string)
    (pre post : list string) :
  classify self line = Comment ->
  no_continuation_ahead self post ->
  parse_lines self (pre ++ line :: post) = parse_lines self (pre ++ post).
Proof.
  intros Hc Hpost. rewrite !parse_lines_stream.
  apply stream_congruence; [|apply building_start].
  intros document last Hb. rewrite stream_comment by assumption.
  now apply stream_last_irrelevant.
Qed.

Lemma comment_line_ignored_witness :
  classify (WhoisTextParser_default []) (nl "# remark") = Comment
  /\ no_continuation_ahead (WhoisTextParser_default []) [nl "b: 2"; nl " c"]
  /\ parse_lines (WhoisTextParser_default [])
       ([nl "a: 1"] ++ nl "# remark" :: [nl "b: 2"; nl " c"])
     = parse_lines (WhoisTextParser_default []) ([nl "a: 1"] ++ [nl "b: 2"; nl " c"]).
Proof.
  assert (Hc : classify (WhoisTextParser_default []) (nl "# remark") = Comment)
    by reflexivity.
  assert (Hp : no_continuation_ahead (WhoisTextParser_default []) [nl "b: 2"; nl " c"])
    by discriminate.
  split; [exact Hc|]. split; [exact Hp|].
  exact (comment_line_ignored _ _ [nl "a: 1"] _ Hc Hp).
Defined.

(** ** The document *)

(** X11. On a dictionary, [join_values] is a map over the items: the keys
    stay, in their order, the lists are replaced by their fragments joined
    with the separator, and the strings stay. *)
Theorem join_values_map (d : WhoisDocument) (join_with : string) :
  Dict.wf d ->
  join_values d join_with = map (fun item => (fst item, joined join_with (snd item))) d.
Proof.
  intros Hwf.
  assert (Hkeys : Dict.keys (join_values d join_with) = Dict.keys d)
    by apply keys_join_values.
  assert (Hget : forall k, Dict.get k (join_values d join_with)
                           = option_map (joined join_with) (Dict.get k d))
    by (intros k; apply get_join_values).
  revert Hkeys Hget. generalize (join_values d join_with) as r.
  induction d as [|[k v] d IH]; intros r Hkeys Hget.
  - destruct r; [reflexivity|discriminate].
  - destruct r as [|[k' v'] r]; [discriminate|].
    injection Hkeys as Hk Hkeys. cbn [fst] in Hk. subst k'.
    pose proof (Hget k) as Hv. cbn [Dict.get] in Hv.
    rewrite String.eqb_refl in Hv. cbn [option_map] in Hv.
    injection Hv as ->. cbn [map fst snd]. f_equal.
    unfold Dict.wf in Hwf. cbn [Dict.keys map fst] in Hwf.
    apply List.NoDup_cons_iff in Hwf as [Hnotin Hwf].
    apply IH; [exact Hwf|exact Hkeys|].
    intros k0. specialize (Hget k0). cbn [Dict.get] in Hget.
    destruct (String.eqb k0 k) eqn:E; [|exact Hget].
    apply String.eqb_eq in E. subst k0.
    assert (Hn : Dict.get k d = None).
    { destruct (Dict.get k d) eqn:Eg; [|reflexivity].
      exfalso. apply Hnotin, contains_iff. unfold Dict.contains. now rewrite Eg. }
    assert (Hn' : Dict.get k r = None).
    { destruct (Dict.get k r) eqn:Eg; [|reflexivity].
      exfalso. apply Hnotin. fold (Dict.keys d). rewrite <- Hkeys.
      apply contains_iff. unfold Dict.contains. now rewrite Eg. }
    now rewrite Hn, Hn'.
Qed.

Lemma join_values_map_witness :
  Dict.wf [("a", Fragments ["1"; "2"]); ("b", Joined "x"); ("c", Fragments [])]
  /\ join_values [("a", Fragments ["1"; "2"]); ("b", Joined "x"); ("c", Fragments [])] ", "
     = [("a", Joined "1, 2"); ("b", Joined "x"); ("c", Joined "")].
Proof.
  assert (Hwf : Dict.wf [("a", Fragments ["1"; "2"]); ("b", Joined "x");
                         ("c", Fragments [])]).
  { repeat constructor; vm_compute; intros H; decompose [or] H; congruence. }
  split; [exact Hwf|].
  exact (join_values_map _ ", " Hwf).
Defined.

(** X12. A document can be hashed exactly when no value of it is a list:
    [__hash__] fails on a document that holds a list of fragments, and gives
    the hash of the set of the pairs on any other. *)
Theorem hashable_iff_finalized (hash : gset (string * value) -> Z) (d : WhoisDocument) :
  (finalized d <-> __hash__ hash d = Some (hash (pair_set d)))
  /\ ((exists k parts, In (k, Fragments parts) d) <-> __hash__ hash d = None).
Proof.
  assert (Hdec : finalized d \/ exists k parts, In (k, Fragments parts) d).
  { induction d as [|[k v] d IH].
    - left. intros k v [].
    - destruct v as [parts|s].
      + right. exists k, parts. now left.
      + destruct IH as [Hf|(k' & parts & Hin)].
        * left. intros k' v' [[= <- <-]|Hin]; eauto.
        * right. exists k', parts. now right. }
  assert (Hyes : finalized d -> __hash__ hash d = Some (hash (pair_set d))).
  { intros Hf. unfold __hash__. now rewrite frozenset_finalized. }
  assert (Hno : (exists k parts, In (k, Fragments parts) d) -> __hash__ hash d = None).
  { intros (k & parts & Hin). unfold __hash__.
    now rewrite (frozenset_fragments d k parts Hin). }
  split; split; auto.
  - intros H. destruct Hdec as [Hf|Hl]; [exact Hf|].
    rewrite (Hno Hl) in H. discriminate.
  - intros H. destruct Hdec as [Hf|Hl]; [|exact Hl].
    rewrite (Hyes Hf) in H. discriminate.
Qed.

(** ** The rendering of a document *)

Section Rendering.

Variable str_of_list : list string -> string.

Lemma collect_format_items (d : WhoisDocument) (items : list (string * value)) :
  (forall k v, In (k, v) items -> Dict.get k d = Some v) ->
  collect (format_item str_of_list d) (Dict.keys items) = Ok (map (item_line str_of_list) items).
Proof.
  induction items as [|[k v] items IH]; intros H; [reflexivity|].
  cbn [Dict.keys map fst collect]. unfold format_item at 1.
  rewrite (H k v (or_introl eq_refl)).
  fold (Dict.keys items). rewrite IH; [reflexivity|].
  intros k' v' Hin. apply H. now right.
Qed.

(** Every key of a document is found in it. *)
Lemma collect_format_keys (d : WhoisDocument) (ks : list string) :
  (forall k, In k ks -> Dict.contains k d = true) ->
  exists lines, collect (format_item str_of_list d) ks = Ok lines.
Proof.
  induction ks as [|k ks IH]; intros H; [now exists []|].
  destruct IH as [lines Hl]; [intros k' Hk'; apply H; now right|].
  cbn [collect]. unfold format_item at 1.
  pose proof (H k (or_introl eq_refl)) as Hk. unfold Dict.contains in Hk.
  destruct (Dict.get k d); [|discriminate]. rewrite Hl. eauto.
Qed.

End Rendering.

(** X13. [__str__] never fails; it gives the braces [{}] for the empty
    document and for no other; and for a dictionary that holds an attribute
    it gives a line feed followed by one line [-- name: value] for each
    item, in the order of the items, the lines joined with line feeds. *)
Theorem str_of_document (str_of_list : list string -> string) (d : WhoisDocument) :
  (exists s, __str__ str_of_list d = Ok s)
  /\ (__str__ str_of_list d = Ok "{}" <-> d = [])
  /\ (Dict.wf d -> d <> [] ->
      __str__ str_of_list d
      = Ok (PyStr.LF ++ PyStr.join PyStr.LF (map (item_line str_of_list) d))%string).
Proof.
  unfold __str__. destruct d as [|item d]; cbn [Dict.is_empty].
  - split; [eauto|]. split; [tauto|congruence].
  - destruct (collect_format_keys str_of_list (item :: d) (Dict.keys (item :: d)))
      as [lines Hl]; [intros k; apply contains_iff|].
    rewrite Hl. split; [eauto|]. split.
    + split; [|discriminate].
      unfold PyStr.LF. rewrite append_cons. intros H. inversion H.
    + intros Hwf _. rewrite collect_format_items in Hl.
      * now injection Hl as <-.
      * intros k v. now apply in_get.
Qed.

Lemma str_of_document_witness :
  Dict.wf [("inetnum", Joined "10.0.0.0/8"); ("source", Joined "RIPE")]
  /\ [("inetnum", Joined "10.0.0.0/8"); ("source", Joined "RIPE")] <> []
  /\ __str__ (fun _ => "") [("inetnum", Joined "10.0.0.0/8"); ("source", Joined "RIPE")]
     = Ok (PyStr.LF ++ "-- inetnum: 10.0.0.0/8" ++ PyStr.LF ++ "-- source: RIPE")%string.
Proof.
  assert (Hwf : Dict.wf [("inetnum", Joined "10.0.0.0/8"); ("source", Joined "RIPE")]).
  { repeat constructor; vm_compute; intros H; decompose [or] H; congruence. }
  assert (Hne : [("inetnum", Joined "10.0.0.0/8"); ("source", Joined "RIPE")] <> [])
    by discriminate.
  split; [exact Hwf|]. split; [exact Hne|].
  exact (proj2 (proj2 (str_of_document (fun _ => "") _)) Hwf Hne).
Defined.

(** ** The driver *)

Section DriverFacts.

Variable hash : gset (string * value) -> Z.

Lemma hashes_cons (d : WhoisDocument) (documents : list WhoisDocument) :
  hashes hash (d :: documents) = {[ hash (pair_set d) ]} ∪ hashes hash documents.
Proof. reflexivity. Qed.

Lemma hashes_app (l1 l2 : list WhoisDocument) :
  hashes hash (l1 ++ l2) = hashes hash l1 ∪ hashes hash l2.
Proof. unfold hashes. now rewrite map_app, list_to_set_app_L. Qed.

Lemma count_documents_finalized (documents : list WhoisDocument) :
  Forall (fun d => Dict.is_empty d = false /\ finalized d) documents ->
  forall counter unique,
    count_documents hash documents counter unique
    = Some (counter + length documents, unique ∪ hashes hash documents).
Proof.
  induction 1 as [|d documents [He Hf] _ IH]; intros counter unique.
  - cbn [count_documents length]. rewrite Nat.add_0_r. do 2 f_equal.
    unfold hashes. cbn [map list_to_set]. set_solver.
  - cbn [count_documents]. rewrite He. unfold __hash__.
    rewrite (frozenset_finalized d Hf), IH. do 2 f_equal.
    + cbn [length]. lia.
    + rewrite hashes_cons. set_solver.
Qed.

Lemma size_hashes (documents : list WhoisDocument) :
  size (hashes hash documents) <= length documents
  /\ (documents <> [] -> 1 <= size (hashes hash documents)).
Proof.
  split.
  - induction documents as [|d documents IH]; cbn [length].
    + unfold hashes. cbn [map list_to_set]. rewrite size_empty. lia.
    + rewrite hashes_cons, size_union_alt, size_singleton.
      assert (Hs : size (hashes hash documents ∖ {[hash (pair_set d)]})
                   <= size (hashes hash documents))
        by (apply subseteq_size; set_solver).
      lia.
  - destruct documents as [|d documents]; [congruence|]. intros _.
    rewrite hashes_cons.
    destruct (size ({[hash (pair_set d)]} ∪ hashes hash documents)) eqn:E; [|lia].
    apply size_empty_iff in E. set_solver.
Qed.

Lemma parse_file_documents (file : list string) :
  Forall (fun d => Dict.is_empty d = false /\ finalized d) (fst (parse_file file)).
Proof.
  rewrite parse_file_lines, parse_lines_stream.
  apply stream_yields; [|apply building_start].
  intros document last Hb He. split.
  - now apply join_values_not_empty.
  - apply join_values_finalized, (building_wf _ _ Hb).
Qed.

End DriverFacts.

(** X14. [load_data] never fails on [hash(document)]. When the parse is not
    aborted it reports as processed the number of documents yielded, every
    one of them being non-empty, and as unique the number of their distinct
    hashes, which is at most the number of documents and at least one when
    there is a document. When the parse is aborted it reports nothing and
    ends with the exception that ended the parse. *)
Theorem load_data_report (hash : gset (string * value) -> Z) (file : list string) :
  load_data hash file <> Unhashable
  /\ (snd (parse_file file) = Exhausted ->
      load_data hash file
      = Reported (length (fst (parse_file file)))
          (size (hashes hash (fst (parse_file file))))
      /\ size (hashes hash (fst (parse_file file))) <= length (fst (parse_file file))
      /\ (fst (parse_file file) <> [] ->
          1 <= size (hashes hash (fst (parse_file file)))))
  /\ (forall e, snd (parse_file file) = Aborted e ->
      load_data hash file = Interrupted e).
Proof.
  unfold load_data.
  rewrite (count_documents_finalized hash _ (parse_file_documents file)).
  cbn [Nat.add]. rewrite (left_id_L ∅ (∪)).
  split; [|split].
  - now destruct (snd (parse_file file)).
  - intros ->. split; [reflexivity|]. apply size_hashes.
  - intros e He. now rewrite He.
Qed.

Lemma load_data_report_witness :
  snd (parse_file [nl "a: 1"; nl ""; nl "b: 2"; nl ""; nl "a: 1"]) = Exhausted
  /\ load_data (fun set => Z.of_nat (size set))
       [nl "a: 1"; nl ""; nl "b: 2"; nl ""; nl "a: 1"]
     = Reported 3
         (size (hashes (fun set => Z.of_nat (size set))
                  (fst (parse_file [nl "a: 1"; nl ""; nl "b: 2"; nl ""; nl "a: 1"])))).
Proof.
  assert (H : snd (parse_file [nl "a: 1"; nl ""; nl "b: 2"; nl ""; nl "a: 1"])
              = Exhausted) by reflexivity.
  split; [exact H|].
  destruct (load_data_report (fun set => Z.of_nat (size set))
              [nl "a: 1"; nl ""; nl "b: 2"; nl ""; nl "a: 1"]) as (_ & Hex & _).
  exact (proj1 (Hex H)).
Defined.

(** X15. Repeated records are counted once as unique: when [load_data]
    reports on a file, it reports on the file followed by a divider line and
    by the same lines again twice as many documents processed and as many
    unique documents. *)
Theorem load_data_repeated (hash : gset (string * value) -> Z) (file : list string)
    (processed unique : nat) :
  load_data hash file = Reported processed unique ->
  load_data hash (file ++ PyStr.LF :: file) = Reported (processed + processed) unique.
Proof.
  unfold load_data.
  rewrite (count_documents_finalized hash _ (parse_file_documents file)).
  rewrite (count_documents_finalized hash _
             (parse_file_documents (file ++ PyStr.LF :: file))).
  cbn [Nat.add]. rewrite !(left_id_L ∅ (∪)).
  destruct (snd (parse_file file)) eqn:He; [|discriminate].
  intros [= <- <-].
  assert (Hsplit : parse_file (file ++ PyStr.LF :: file)
                   = (fst (parse_file file) ++ fst (parse_file file),
                      snd (parse_file file))).
  { rewrite (parse_file_lines file) in *.
    rewrite (parse_file_lines (file ++ PyStr.LF :: file)).
    rewrite !parse_lines_stream in *.
    exact (stream_split_at_divider (WhoisTextParser_default []) file file
             [] (Some "") building_start He). }
  rewrite Hsplit. cbn [fst snd]. rewrite He, List.length_app, hashes_app.
  now rewrite (idemp_L (∪)).
Qed.

Lemma load_data_repeated_witness :
  load_data (fun set => Z.of_nat (size set)) [nl "a: 1"; nl ""; nl "b: 2"; nl "c: 3"]
  = Reported 2 2
  /\ load_data (fun set => Z.of_nat (size set))
       ([nl "a: 1"; nl ""; nl "b: 2"; nl "c: 3"]
          ++ PyStr.LF :: [nl "a: 1"; nl ""; nl "b: 2"; nl "c: 3"])
     = Reported (2 + 2) 2.
Proof.
  assert (H : load_data (fun set => Z.of_nat (size set))
                [nl "a: 1"; nl ""; nl "b: 2"; nl "c: 3"] = Reported 2 2)
    by (vm_compute; reflexivity).
  split; [exact H|].
  exact (load_data_repeated _ _ _ _ H).
Defined.

(** ** The source file *)

(** The test of [is_file_gzipped] on the bytes of a file. *)
Lemma gzip_magic (content : list byte) :
  match firstn 2 content with
  | [first; second] => Byte.eqb first x1f && Byte.eqb second x8b
  | _ => false
  end = true
  <-> exists rest, content = x1f :: x8b :: rest.
Proof.
  destruct content as [|first [|second rest]].
  - split; [discriminate|]. intros [rest H]. discriminate H.
  - split; [discriminate|]. intros [rest H]. discriminate H.
  - change (firstn 2 (first :: second :: rest)) with [first; second].
    rewrite andb_true_iff. split.
    + intros [E1 E2]. apply Byte.byte_dec_bl in E1, E2. subst. now exists rest.
    + intros [rest' H]. injection H as -> -> _. split; now apply Byte.byte_dec_lb.
Qed.

(** X16. [SourceFile(path)] fails exactly when the path cannot be opened;
    otherwise it holds no file object yet, and it has chosen [gzip.open]
    exactly when the file starts with the two bytes [1f 8b]: a file of
    fewer than two bytes is opened as plain text. *)
Theorem source_file_opener (fs : SourceFile.file_system) (path encoding : string) :
  (SourceFile.__init__ fs path encoding = SourceFile.Fails SourceFile.FileNotFoundError
   <-> fs path = None)
  /\ (forall self,
         SourceFile.__init__ fs path encoding = SourceFile.Done self ->
         SourceFile.path self = path
         /\ SourceFile._file self = None
         /\ (SourceFile._file_open_function self = SourceFile.gzip_open
             <-> exists rest, fs path = Some (x1f :: x8b :: rest))).
Proof.
  unfold SourceFile.__init__, SourceFile._get_file_opener_function,
    SourceFile.is_file_gzipped.
  destruct (fs path) as [content|]; [|split; [tauto|discriminate]].
  pose proof (gzip_magic content) as Hm.
  destruct (match firstn 2 content with
            | [first; second] => Byte.eqb first x1f && Byte.eqb second x8b
            | _ => false
            end).
  - split; [split; discriminate|].
    intros self [= <-]. cbn. split; [reflexivity|]. split; [reflexivity|].
    split; [intros _|reflexivity].
    destruct (proj1 Hm eq_refl) as [rest ->]. now exists rest.
  - split; [split; discriminate|].
    intros self [= <-]. cbn. split; [reflexivity|]. split; [reflexivity|].
    split; [discriminate|].
    intros [rest [= ->]].
    assert (Habs : false = true) by (apply (proj2 Hm); now exists rest).
    discriminate Habs.
Qed.

(** X17. A source file is entered once: [__enter__] gives an open file
    object and keeps it, and from then on every [__enter__] raises the
    [IOError] that names the path, also after [__exit__] has closed the
    file. *)
Theorem source_file_entered_once (fs : SourceFile.file_system)
    (self entered : SourceFile.t) (file : SourceFile.TextIOWrapper) :
  SourceFile.__enter__ fs self = SourceFile.Done (file, entered) ->
  SourceFile.closed file = false
  /\ SourceFile._file entered = Some file
  /\ SourceFile.opened_by file = SourceFile._file_open_function self
  /\ SourceFile.__enter__ fs entered
     = SourceFile.Fails
         (SourceFile.IOError ("File is opened already: " ++ SourceFile.path self))
  /\ (forall exited,
         SourceFile.__exit__ entered = SourceFile.Done exited ->
         SourceFile.__enter__ fs exited
         = SourceFile.Fails
             (SourceFile.IOError ("File is opened already: " ++ SourceFile.path self))).
Proof.
  unfold SourceFile.__enter__ at 1.
  destruct (SourceFile._file self); [discriminate|].
  destruct (fs (SourceFile.path self)); [|discriminate].
  intros [= <- <-]. cbn. repeat split; try reflexivity.
  intros exited [= <-]. reflexivity.
Qed.

Lemma source_file_entered_once_witness :
  SourceFile.__enter__ (fun _ => Some [x1f; x8b; x08])
    {| SourceFile.path := "ripe.db.gz"; SourceFile.encoding := "utf-8";
       SourceFile._file := None;
       SourceFile._file_open_function := SourceFile.gzip_open |}
  = SourceFile.Done
      ({| SourceFile.name := "ripe.db.gz"; SourceFile.opened_by := SourceFile.gzip_open;
          SourceFile.text_encoding := "utf-8"; SourceFile.closed := false |},
       {| SourceFile.path := "ripe.db.gz"; SourceFile.encoding := "utf-8";
          SourceFile._file :=
            Some {| SourceFile.name := "ripe.db.gz";
                    SourceFile.opened_by := SourceFile.gzip_open;
                    SourceFile.text_encoding := "utf-8";
                    SourceFile.closed := false |};
          SourceFile._file_open_function := SourceFile.gzip_open |})
  /\ SourceFile.__enter__ (fun _ => Some [x1f; x8b; x08])
       {| SourceFile.path := "ripe.db.gz"; SourceFile.encoding := "utf-8";
          SourceFile._file :=
            Some {| SourceFile.name := "ripe.db.gz";
                    SourceFile.opened_by := SourceFile.gzip_open;
                    SourceFile.text_encoding := "utf-8";
                    SourceFile.closed := false |};
          SourceFile._file_open_function := SourceFile.gzip_open |}
     = SourceFile.Fails (SourceFile.IOError "File is opened already: ripe.db.gz").
Proof.
  assert (H : SourceFile.__enter__ (fun _ => Some [x1f; x8b; x08])
                {| SourceFile.path := "ripe.db.gz"; SourceFile.encoding := "utf-8";
                   SourceFile._file := None;
                   SourceFile._file_open_function := SourceFile.gzip_open |}
              = SourceFile.Done
                  ({| SourceFile.name := "ripe.db.gz";
                      SourceFile.opened_by := SourceFile.gzip_open;
                      SourceFile.text_encoding := "utf-8";
                      SourceFile.closed := false |},
                   {| SourceFile.path := "ripe.db.gz"; SourceFile.encoding := "utf-8";
                      SourceFile._file :=
                        Some {| SourceFile.name := "ripe.db.gz";
                                SourceFile.opened_by := SourceFile.gzip_open;
                                SourceFile.text_encoding := "utf-8";
                                SourceFile.closed := false |};
                      SourceFile._file_open_function := SourceFile.gzip_open |}))
    by reflexivity.
  split; [exact H|].
  exact (proj1 (proj2 (proj2 (proj2 (source_file_entered_once _ _ _ _ H))))).
Defined.

(** X18. [__exit__] on a source file that was never entered raises the
    [AttributeError] of [None]; on one that was entered it leaves the file
    object closed, and a second [__exit__] changes nothing. *)
Theorem source_file_exit (self : SourceFile.t) :
  (SourceFile._file self = None ->
   SourceFile.__exit__ self = SourceFile.Fails SourceFile.NoneAttributeError)
  /\ (forall exited,
         SourceFile.__exit__ self = SourceFile.Done exited ->
         (exists file,
             SourceFile._file exited = Some file /\ SourceFile.closed file = true)
         /\ SourceFile.path exited = SourceFile.path self
         /\ SourceFile.__exit__ exited = SourceFile.Done exited).
Proof.
  unfold SourceFile.__exit__ at 1 2. split.
  - now intros ->.
  - intros exited. destruct (SourceFile._file self) as [file|] eqn:Ef; [|discriminate].
    destruct (SourceFile.closed file) eqn:Ec; cbn [negb]; intros [= <-].
    + unfold SourceFile.__exit__. rewrite Ef, Ec. cbn [negb]. eauto.
    + cbn. eauto.
Qed.

Lemma source_file_exit_witness :
  SourceFile._file
    {| SourceFile.path := "ripe.db"; SourceFile.encoding := "utf-8";
       SourceFile._file := None;
       SourceFile._file_open_function := SourceFile.builtin_open |} = None
  /\ SourceFile.__exit__
       {| SourceFile.path := "ripe.db"; SourceFile.encoding := "utf-8";
          SourceFile._file := None;
          SourceFile._file_open_function := SourceFile.builtin_open |}
     = SourceFile.Fails SourceFile.NoneAttributeError.
Proof.
  split; [reflexivity|].
  exact (proj1 (source_file_exit
                  {| SourceFile.path := "ripe.db"; SourceFile.encoding := "utf-8";
                     SourceFile._file := None;
                     SourceFile._file_open_function := SourceFile.builtin_open |})
           eq_refl).
Defined.
